(** * Concurrent-session benchmark for a completion endpoint

    A shallow embedding of the benchmark core shared by
    [kubernetes_vllm_concurrent_benchmark.py] and
    [kind-setup/kind_benchmark.py]: the prompt pool, the single request
    ([send_completion_request]), the batch ([run_concurrent_benchmark]),
    the aggregation ([analyze_results]) and the sweep loop of [main].
    The two files differ only in transport options (timeout, connector),
    which are not modelled, and in console output, which is modelled
    for [analyze_results] alone ([analyze_results_in]); so one embedding
    serves both.

    Numbers.  Python [int] is [Z].  Python [float] is idealised as an
    exact rational ([Q]); comparisons of rationals are stated with [==]
    ([Qeq]), [<=] and [<].  One part of the file looks at the mean
    in IEEE binary64, where rounding is visible.

    Effects.  Clock readings and the server's replies are inputs: a
    [Session] gives, for each request, the clock readings around it and
    what the transport did.  Python exceptions are values of [exn]
    threaded through the small error monad [exc].  Where it matters
    what a call does to the objects it is handed, the objects live in
    a heap and the call is a computation of [run], which threads heap
    and console. *)

From Stdlib Require Import ZArith QArith Qround Qminmax List String Bool Lia Lqa Psatz.
From Stdlib Require Import Sorting.Permutation Sorting.Sorted Floats.
Import ListNotations.

Local Open Scope Z_scope.

(* ================================================================== *)
(** * Exceptions *)

Inductive exn : Type :=
| TransportError (msg : string)   (* raised by the POST or by response.json() *)
| BodyError (msg : string)        (* AttributeError, TypeError or KeyError raised
                                     while the body is read *)
| TypeError (msg : string)        (* an object used as what it is not *)
| IndexError                      (* list index out of range *)
| ZeroDivisionError               (* float division by zero *)
| ValueError.                     (* a reduction over an empty array *)

(** [str(e)] *)
Definition exn_str (e : exn) : string :=
  match e with
  | TransportError msg => msg
  | BodyError msg => msg
  | TypeError msg => msg
  | IndexError => "list index out of range"
  | ZeroDivisionError => "float division by zero"
  | ValueError => "zero-size array to reduction operation"
  end.

Inductive exc (A : Type) : Type :=
| Return (a : A)
| Raise (e : exn).
Arguments Return {A} a.
Arguments Raise {A} e.

Definition bind {A B : Type} (m : exc A) (k : A -> exc B) : exc B :=
  match m with
  | Return a => k a
  | Raise e => Raise e
  end.

Notation "x <- m ;; k" := (bind m (fun x => k))
  (at level 61, m at next level, right associativity).

Definition raised {A : Type} (m : exc A) : Prop := exists e, m = Raise e.

(* ================================================================== *)
(** * Python arithmetic on the idealised floats *)

Definition Qltb (x y : Q) : bool := negb (Qle_bool y x).

(** [x / y] on floats: raises on a zero divisor. *)
Definition py_div (x y : Q) : exc Q :=
  if Qeq_bool y 0 then Raise ZeroDivisionError else Return (x / y)%Q.

(** [range(n)]: empty when [n <= 0]. *)
Definition py_range (n : Z) : list Z := map Z.of_nat (seq 0 (Z.to_nat n)).

(** [s[:k]] on a string. *)
Definition str_prefix (k : nat) (s : string) : string := substring 0 k s.

(* ================================================================== *)
(** * PromptSource: TEST_PROMPTS *)

Local Open Scope string_scope.
Local Open Scope list_scope.

Definition TEST_PROMPTS : list string :=
  [ "What is the capital of France?";
    "Explain quantum computing in simple terms.";
    "Write a short poem about nature.";
    "What are the benefits of exercise?";
    "Describe the water cycle.";
    "What is machine learning?";
    "How does photosynthesis work?";
    "What is the theory of relativity?";
    "Explain blockchain technology.";
    "What are the layers of Earth's atmosphere?" ].

(** [len(TEST_PROMPTS)] *)
Definition pool_size : Z := Z.of_nat (List.length TEST_PROMPTS).

(** [TEST_PROMPTS[i]] for a non-negative index; [None] is IndexError. *)
Definition prompt_at (i : Z) : option string := nth_error TEST_PROMPTS (Z.to_nat i).

(** [TEST_PROMPTS[request_id % len(TEST_PROMPTS)]] *)
Definition prompt_for (request_id : Z) : string :=
  nth (Z.to_nat (request_id mod pool_size)) TEST_PROMPTS "".

(* ================================================================== *)
(** * RequestExecutor: send_completion_request *)

(** The parsed body of a response, as far as the code reads it:
    [result.get("usage", {})], [usage.get("completion_tokens", 0)],
    [usage.get("total_tokens", 0)], [result.get("choices", [{}])] and
    each choice's [.get("text", "")].  [None] is a missing key.  The
    counts are passed on as the server gave them, unchecked: any
    integer, a negative one included.  (A count that is not an integer
    is not modelled.) *)
Record Usage : Type := mkUsage {
  usage_completion_tokens : option Z;
  usage_total_tokens : option Z
}.

Record Body : Type := mkBody {
  body_usage : option Usage;
  body_choices : option (list (option string))
}.

(** What the transport did.  [Responded] is a body of the shape above.
    [Unusable] is a body on which the [try] block raises while it
    reads it, after the end time was read: the parsed value is not an
    object, or "usage" is there and is not an object (null, say), or
    "choices" is there and is not a list, or the first choice is not an
    object, or its "text" is null, a number, a boolean or an object,
    or "completion_tokens" is null or a string and the division takes
    place; [msg] is the text of that exception.  Bodies of yet another
    shape, which the code reads without raising (a count that is a
    float or a boolean, a "text" that is a list), are left out. *)
Inductive Reply : Type :=
| Responded (body : Body)     (* the POST completed and json() returned *)
| Unusable (msg : string)     (* json() returned a body the code cannot read *)
| Failed (msg : string).      (* the POST or json() raised: transport,
                                 timeout or parse failure *)

(** What happened around one request: the clock reading before the
    call, the first reading after it (after json() returned, or in the
    handler when the call raised), and the reading the handler takes
    when an exception is raised later, while the body is processed. *)
Record Exchange : Type := mkExchange {
  t_start : Q;
  t_end : Q;
  t_handler : Q;
  reply : Reply
}.

(** The shared client session, by request id. *)
Definition Session : Type := Z -> Exchange.

Record Outcome : Type := mkOutcome {
  request_id : Z;
  prompt : string;
  latency : Q;
  completion_tokens : Z;
  total_tokens : Z;
  tokens_per_second : Q;
  success : bool;
  response : option string;
  error : option string
}.

(** [completion_tokens / latency if latency > 0 else 0] *)
Definition tokens_per_second_expr (completion_tokens : Z) (latency : Q) : exc Q :=
  if Qltb 0 latency then py_div (inject_Z completion_tokens) latency else Return 0%Q.

(** [result.get("choices", [{}])[0].get("text", "")[:100]] *)
Definition first_choice_text (b : Body) : exc string :=
  match body_choices b with
  | None => Return (str_prefix 100 "")
  | Some [] => Raise IndexError
  | Some (c :: _) =>
      Return (str_prefix 100 (match c with Some t => t | None => "" end))
  end.

(** [result.get("usage", {}).get(field, 0)] *)
Definition usage_field (b : Body) (f : Usage -> option Z) : Z :=
  match body_usage b with
  | None => 0
  | Some u => match f u with Some n => n | None => 0 end
  end.

(** The body of the [try] block. *)
Definition try_request (x : Exchange) (prompt : string) (request_id : Z) : exc Outcome :=
  result <- match reply x with
            | Responded b => Return b
            | Unusable msg => Raise (BodyError msg)
            | Failed msg => Raise (TransportError msg)
            end ;;
  let end_time := t_end x in
  let latency := (end_time - t_start x)%Q in
  let completion_tokens := usage_field result usage_completion_tokens in
  let total_tokens := usage_field result usage_total_tokens in
  tokens_per_second <- tokens_per_second_expr completion_tokens latency ;;
  text <- first_choice_text result ;;
  Return {| request_id := request_id;
            prompt := (str_prefix 50 prompt ++ "...")%string;
            latency := latency;
            completion_tokens := completion_tokens;
            total_tokens := total_tokens;
            tokens_per_second := tokens_per_second;
            success := true;
            response := Some text;
            error := None |}.

(** The clock reading taken in the [except] block. *)
Definition handler_time (x : Exchange) : Q :=
  match reply x with
  | Failed _ => t_end x
  | Responded _ | Unusable _ => t_handler x
  end.

Definition send_completion_request
    (session : Session) (prompt : string) (max_tokens : Z) (temperature : Q)
    (request_id : Z) : Outcome :=
  let x := session request_id in
  match try_request x prompt request_id with
  | Return o => o
  | Raise e =>
      let end_time := handler_time x in
      {| request_id := request_id;
         prompt := (str_prefix 50 prompt ++ "...")%string;
         latency := (end_time - t_start x)%Q;
         completion_tokens := 0;
         total_tokens := 0;
         tokens_per_second := 0%Q;
         success := false;
         response := None;
         error := Some (exn_str e) |}
  end.

(* ================================================================== *)
(** * ConcurrencyOrchestrator: run_concurrent_benchmark *)

(** A request that has been created but not yet awaited. *)
Record Task : Type := mkTask {
  task_prompt : string;
  task_max_tokens : Z;
  task_temperature : Q;
  task_request_id : Z
}.

(** The loop state: the [tasks] list and the [request_id] counter. *)
Definition LoopState : Type := (list Task * Z)%type.

(** The body of the inner loop. *)
Definition create_task (st : LoopState) : LoopState :=
  let '(tasks, request_id) := st in
  let prompt := prompt_for request_id in
  let task := {| task_prompt := prompt;
                 task_max_tokens := 100;
                 task_temperature := (7 # 10)%Q;
                 task_request_id := request_id |} in
  (tasks ++ [task], request_id + 1).

(** [for _ in range(num_requests_per_session): ...] *)
Definition session_loop (num_requests_per_session : Z) (st : LoopState) : LoopState :=
  fold_left (fun st _ => create_task st) (py_range num_requests_per_session) st.

(** [for _ in range(num_concurrent): for _ in range(...): ...],
    started from [tasks = []] and [request_id = 0]. *)
Definition build_tasks (num_concurrent num_requests_per_session : Z) : list Task :=
  fst (fold_left (fun st _ => session_loop num_requests_per_session st)
                 (py_range num_concurrent) ([], 0)).

(** One batch: the shared session and the two clock readings around
    [asyncio.gather]. *)
Record Batch : Type := mkBatch {
  batch_session : Session;
  gather_start : Q;
  gather_end : Q
}.

Definition run_task (session : Session) (t : Task) : Outcome :=
  send_completion_request session (task_prompt t) (task_max_tokens t)
    (task_temperature t) (task_request_id t).

(** [asyncio.gather] over the tasks returns the results in the order
    of its arguments. *)
Definition gather (session : Session) (tasks : list Task) : list Outcome :=
  map (run_task session) tasks.

Definition run_concurrent_benchmark
    (w : Batch) (num_concurrent num_requests_per_session : Z) : list Outcome * Q :=
  let tasks := build_tasks num_concurrent num_requests_per_session in
  let start_time := gather_start w in
  let results := gather (batch_session w) tasks in
  let end_time := gather_end w in
  (results, (end_time - start_time)%Q).

(* ================================================================== *)
(** * numpy reductions, in exact arithmetic

    The reductions [analyze_results] calls, by their documented
    results: the arithmetic mean, the least and the greatest element,
    the median of the sorted array, and the percentile by linear
    interpolation in the sorted array (numpy's default method).
    [None] stands for what numpy does on an empty array: [np.mean] and
    [np.median] give nan, [np.min] and [np.max] raise ValueError, and
    [np.percentile] has no element to interpolate between. *)

Local Open Scope Q_scope.

Definition Qsum (l : list Q) : Q := fold_left Qplus l 0.

(** [len(l)] as a float. *)
Definition Qlen (l : list Q) : Q := inject_Z (Z.of_nat (List.length l)).

(** [np.mean] *)
Definition np_mean (l : list Q) : option Q :=
  match l with
  | [] => None
  | _ => Some (Qsum l / Qlen l)
  end.

(** Reductions by [np.minimum] and [np.maximum]. *)
Definition np_min (l : list Q) : option Q :=
  match l with
  | [] => None
  | x :: l' => Some (fold_left Qmin l' x)
  end.

Definition np_max (l : list Q) : option Q :=
  match l with
  | [] => None
  | x :: l' => Some (fold_left Qmax l' x)
  end.

(** The sorted copy that [np.median] and [np.percentile] work on. *)
Fixpoint insert (x : Q) (l : list Q) : list Q :=
  match l with
  | [] => [x]
  | y :: l' => if Qle_bool x y then x :: l else y :: insert x l'
  end.

Definition sort (l : list Q) : list Q := fold_right insert [] l.

(** [a[i]] on a list known to be long enough. *)
Definition at_index (a : list Q) (i : nat) : Q := nth i a 0.

(** [np.median]: the middle element of the sorted array, or the mean of
    the two middle elements when the length is even. *)
Definition np_median (l : list Q) : option Q :=
  match l with
  | [] => None
  | _ =>
      let a := sort l in
      let n := List.length a in
      if Nat.even n
      then Some ((at_index a (n / 2 - 1) + at_index a (n / 2)) / 2)
      else Some (at_index a (n / 2))
  end.

(** Linear interpolation in a sorted array [a] at the virtual index
    [h]: between [a[floor h]] and its right neighbour (clipped to the
    last index), by the fractional part of [h]. *)
Definition interpolate (a : list Q) (h : Q) : Q :=
  let lo := Z.to_nat (Qfloor h) in
  let hi := Nat.min (lo + 1) (List.length a - 1) in
  let gamma := h - inject_Z (Qfloor h) in
  at_index a lo + (at_index a hi - at_index a lo) * gamma.

(** The virtual index of the [q]-th percentile among [n] values:
    [(n - 1) * q / 100]. *)
Definition virtual_index (n : nat) (q : Q) : Q :=
  inject_Z (Z.of_nat (n - 1)) * (q / 100).

(** [np.percentile(l, q)] with numpy's default, linear method. *)
Definition np_percentile (l : list Q) (q : Q) : option Q :=
  match l with
  | [] => None
  | _ =>
      let a := sort l in
      Some (interpolate a (virtual_index (List.length a) q))
  end.

(* ================================================================== *)
(** * StatisticsEngine: analyze_results *)

Record Stats : Type := mkStats {
  num_concurrent : Z;
  total_requests : Z;
  successful_requests : Z;
  failed_requests : Z;
  total_time : Q;
  avg_latency : Q;
  median_latency : Q;
  p95_latency : Q;
  p99_latency : Q;
  min_latency : Q;
  max_latency : Q;
  avg_tokens_per_second : Q;
  total_tokens_generated : Z;
  overall_throughput : Q
}.

(** A numpy result used as a dictionary value: an undefined one ends
    the construction of the dictionary. *)
Definition np (v : option Q) : exc Q :=
  match v with
  | Some q => Return q
  | None => Raise ValueError
  end.

(** The builtin [sum] over integers. *)
Definition py_sum (l : list Z) : Z := fold_left Z.add l 0%Z.

(** [len(l)] *)
Definition py_len {A : Type} (l : list A) : Z := Z.of_nat (List.length l).

(** [sum(completion_tokens) / total_time if total_time > 0 else 0] *)
Definition overall_throughput_expr (tokens : Z) (total_time : Q) : exc Q :=
  if Qltb 0 total_time then py_div (inject_Z tokens) total_time else Return 0.

Definition analyze_results
    (results : list Outcome) (total_time : Q) (num_concurrent : Z)
    : exc (option Stats) :=
  let successful := filter (fun r => success r) results in
  let failed := filter (fun r => negb (success r)) results in
  match successful with
  | [] => Return None
  | _ :: _ =>
      let latencies := map latency successful in
      let tokens_per_second := map tokens_per_second successful in
      let completion_tokens := map completion_tokens successful in
      avg <- np (np_mean latencies) ;;
      median <- np (np_median latencies) ;;
      p95 <- np (np_percentile latencies 95) ;;
      p99 <- np (np_percentile latencies 99) ;;
      lo <- np (np_min latencies) ;;
      hi <- np (np_max latencies) ;;
      avg_tps <- np (np_mean tokens_per_second) ;;
      throughput <- overall_throughput_expr (py_sum completion_tokens) total_time ;;
      Return (Some {| num_concurrent := num_concurrent;
                      total_requests := py_len results;
                      successful_requests := py_len successful;
                      failed_requests := py_len failed;
                      total_time := total_time;
                      avg_latency := avg;
                      median_latency := median;
                      p95_latency := p95;
                      p99_latency := p99;
                      min_latency := lo;
                      max_latency := hi;
                      avg_tokens_per_second := avg_tps;
                      total_tokens_generated := py_sum completion_tokens;
                      overall_throughput := throughput |})
  end.

(* ================================================================== *)
(** * analyze_results among the objects of the interpreter

    The body of [analyze_results] once more, with the objects it
    touches made explicit.  [results] is a reference to a list object,
    whose elements are references to the outcome dictionaries; the two
    list comprehensions build new list objects that share those
    dictionaries; [print] writes to the console.  The function above
    is what this one returns when the objects are as they should be
    (see [analyze_results_in_spec]); this one also shows what the call
    does to them, which is nothing besides the new lists and the
    console. *)

Definition ref : Type := nat.

Inductive object : Type :=
| Dict (o : Outcome)            (* an outcome dictionary *)
| PyList (items : list ref).    (* a list of references *)

Record Interp : Type := mkInterp {
  heap : list object;
  console : list string
}.

(** A computation that reads and changes the state and may raise. *)
Definition run (A : Type) : Type := Interp -> exc A * Interp.

Definition ret {A : Type} (a : A) : run A := fun s => (Return a, s).

Definition bind_run {A B : Type} (m : run A) (k : A -> run B) : run B :=
  fun s => match m s with
           | (Return a, s') => k a s'
           | (Raise e, s') => (Raise e, s')
           end.

Notation "x <~ m ;; k" := (bind_run m (fun x => k))
  (at level 61, m at next level, right associativity).

Definition lift {A : Type} (m : exc A) : run A := fun s => (m, s).

(** The dictionary behind a reference, for [r["key"]]. *)
Definition read_dict (r : ref) : run Outcome :=
  fun s => match nth_error (heap s) r with
           | Some (Dict o) => (Return o, s)
           | _ => (Raise (TypeError "list indices must be integers or slices, not str"), s)
           end.

(** The elements of the list behind a reference, for iteration, [len]
    and truth. *)
Definition elements (r : ref) : run (list ref) :=
  fun s => match nth_error (heap s) r with
           | Some (PyList items) => (Return items, s)
           | _ => (Raise (TypeError "object is not iterable"), s)
           end.

(** A new list object. *)
Definition new_list (items : list ref) : run ref :=
  fun s => (Return (List.length (heap s)),
            {| heap := heap s ++ [PyList items]; console := console s |}).

(** [print(line)] *)
Definition print (line : string) : run unit :=
  fun s => (Return tt, {| heap := heap s; console := console s ++ [line] |}).

(** [[r for r in items if keep(r)]] *)
Fixpoint select (keep : Outcome -> bool) (items : list ref) : run (list ref) :=
  match items with
  | [] => ret []
  | r :: rest =>
      d <~ read_dict r ;;
      kept <~ select keep rest ;;
      ret (if keep d then r :: kept else kept)
  end.

(** [[r["field"] for r in items]] *)
Fixpoint column {A : Type} (field : Outcome -> A) (items : list ref) : run (list A) :=
  match items with
  | [] => ret []
  | r :: rest =>
      d <~ read_dict r ;;
      values <~ column field rest ;;
      ret (field d :: values)
  end.

(** [for f in items: print(f"  Error: {f.get('error', 'Unknown')}")].
    Every outcome dictionary has the key, so the default is never
    taken; a value of None is formatted as such. *)
Fixpoint print_errors (items : list ref) : run unit :=
  match items with
  | [] => ret tt
  | f :: rest =>
      d <~ read_dict f ;;
      _ <~ print ("  Error: " ++ match error d with
                                 | Some e => e
                                 | None => "None"
                                 end)%string ;;
      print_errors rest
  end.

(** The two files: only the second prints the first three errors. *)
Inductive Script : Type := Kubernetes | Kind.

Definition analyze_results_in
    (script : Script) (results : ref) (total_time : Q) (num_concurrent : Z)
    : run (option Stats) :=
  items <~ elements results ;;
  kept <~ select (fun r => success r) items ;;
  successful <~ new_list kept ;;
  items <~ elements results ;;
  rest <~ select (fun r => negb (success r)) items ;;
  failed <~ new_list rest ;;
  truth <~ elements successful ;;
  match truth with
  | [] =>
      _ <~ print "❌ All requests failed!" ;;
      _ <~ match script with
           | Kubernetes => ret tt
           | Kind =>
               failures <~ elements failed ;;
               first3 <~ new_list (firstn 3 failures) ;;
               shown <~ elements first3 ;;
               print_errors shown
           end ;;
      ret None
  | _ :: _ =>
      of_successful <~ elements successful ;;
      latencies <~ column latency of_successful ;;
      of_successful <~ elements successful ;;
      tokens_per_second <~ column tokens_per_second of_successful ;;
      of_successful <~ elements successful ;;
      completion_tokens <~ column completion_tokens of_successful ;;
      all <~ elements results ;;
      of_successful <~ elements successful ;;
      of_failed <~ elements failed ;;
      avg <~ lift (np (np_mean latencies)) ;;
      median <~ lift (np (np_median latencies)) ;;
      p95 <~ lift (np (np_percentile latencies 95)) ;;
      p99 <~ lift (np (np_percentile latencies 99)) ;;
      lo <~ lift (np (np_min latencies)) ;;
      hi <~ lift (np (np_max latencies)) ;;
      avg_tps <~ lift (np (np_mean tokens_per_second)) ;;
      throughput <~ lift (overall_throughput_expr (py_sum completion_tokens)
                                                  total_time) ;;
      ret (Some {| num_concurrent := num_concurrent;
                   total_requests := py_len all;
                   successful_requests := py_len of_successful;
                   failed_requests := py_len of_failed;
                   total_time := total_time;
                   avg_latency := avg;
                   median_latency := median;
                   p95_latency := p95;
                   p99_latency := p99;
                   min_latency := lo;
                   max_latency := hi;
                   avg_tokens_per_second := avg_tps;
                   total_tokens_generated := py_sum completion_tokens;
                   overall_throughput := throughput |})
  end.

(** The dictionaries behind [items] have the contents [outcomes]. *)
Definition points (s : Interp) (items : list ref) (outcomes : list Outcome) : Prop :=
  Forall2 (fun i o => nth_error (heap s) i = Some (Dict o)) items outcomes.

(** The list behind [r] holds references to dictionaries with the
    contents [outcomes], in this order. *)
Definition stores (s : Interp) (r : ref) (outcomes : list Outcome) : Prop :=
  exists items,
    nth_error (heap s) r = Some (PyList items) /\ points s items outcomes.

(** [s'] is [s] with new objects and new lines, nothing else changed. *)
Definition extends (s s' : Interp) : Prop :=
  exists extra lines,
    heap s' = heap s ++ extra /\ console s' = console s ++ lines.

(* ================================================================== *)
(** * BenchmarkSweep: the loop of main *)

(** The batches of a run, by position in the sweep. *)
Definition World : Type := nat -> Batch.

(** The loop state: [all_stats] and the number of batches run so far. *)
Definition SweepState : Type := (list Stats * nat)%type.

(** The body of [for num_concurrent in concurrency_levels]. *)
Definition sweep_step (w : World) (requests_per_session : Z)
    (st : exc SweepState) (level : Z) : exc SweepState :=
  st' <- st ;;
  let '(all_stats, k) := st' in
  let '(results, total_time) :=
    run_concurrent_benchmark (w k) level requests_per_session in
  stats <- analyze_results results total_time level ;;
  Return (match stats with
          | Some s => all_stats ++ [s]
          | None => all_stats
          end, S k).

Definition sweep (w : World) (levels : list Z) (requests_per_session : Z)
    : exc (list Stats) :=
  st <- fold_left (sweep_step w requests_per_session) levels (Return ([], 0%nat)) ;;
  Return (fst st).

Definition concurrency_levels : list Z := [1; 2; 4; 8; 16]%Z.
Definition requests_per_session : Z := 5%Z.

Definition main (w : World) : exc (list Stats) :=
  sweep w concurrency_levels requests_per_session.

(** The request ids handed out during a sweep, batch after batch. *)
Definition sweep_request_ids (levels : list Z) (requests_per_session : Z)
    : list (list Z) :=
  map (fun level => map task_request_id (build_tasks level requests_per_session))
      levels.

(** A configuration the sweep should not accept: no level at all, a
    level that is not positive, or no request per session. *)
Definition malformed (levels : list Z) (requests_per_session : Z) : Prop :=
  levels = [] \/ Exists (fun n => (n <= 0)%Z) levels \/ (requests_per_session <= 0)%Z.

(* ================================================================== *)
(** * Closed forms and auxiliary notions *)

Local Open Scope Q_scope.

(** The task the inner loop creates when the counter is [id]. *)
Definition task_of (id : Z) : Task :=
  {| task_prompt := prompt_for id;
     task_max_tokens := 100%Z;
     task_temperature := (7 # 10)%Q;
     task_request_id := id |}.

(** [k] consecutive integers from [c]. *)
Fixpoint count_from (c : Z) (k : nat) : list Z :=
  match k with
  | O => []
  | S k' => c :: count_from (c + 1)%Z k'
  end.

(** The reductions on a non-empty list, without the empty case. *)
Definition mean (l : list Q) : Q := Qsum l / Qlen l.

Definition minimum (l : list Q) : Q := fold_left Qmin (tl l) (hd 0 l).

Definition maximum (l : list Q) : Q := fold_left Qmax (tl l) (hd 0 l).

Definition median (l : list Q) : Q :=
  let a := sort l in
  let n := List.length a in
  if Nat.even n
  then (at_index a (n / 2 - 1) + at_index a (n / 2)) / 2
  else at_index a (n / 2).

Definition percentile (l : list Q) (q : Q) : Q :=
  interpolate (sort l) (virtual_index (List.length (sort l)) q).

Definition successful_of (results : list Outcome) : list Outcome :=
  filter (fun r => success r) results.

Definition failed_of (results : list Outcome) : list Outcome :=
  filter (fun r => negb (success r)) results.

(** The record [analyze_results] builds once some request succeeded. *)
Definition stats_of (results : list Outcome) (total_time : Q) (num_concurrent : Z)
    : Stats :=
  let successful := successful_of results in
  let latencies := map latency successful in
  let tokens := py_sum (map completion_tokens successful) in
  {| num_concurrent := num_concurrent;
     total_requests := py_len results;
     successful_requests := py_len successful;
     failed_requests := py_len (failed_of results);
     total_time := total_time;
     avg_latency := mean latencies;
     median_latency := median latencies;
     p95_latency := percentile latencies 95;
     p99_latency := percentile latencies 99;
     min_latency := minimum latencies;
     max_latency := maximum latencies;
     avg_tokens_per_second := mean (map tokens_per_second successful);
     total_tokens_generated := tokens;
     overall_throughput :=
       if Qltb 0 total_time then inject_Z tokens / total_time else 0 |}.

(** What a level contributes to the run: its record, or nothing when
    no request of its batch succeeded. *)
Definition batch_stats (w : World) (rps : Z) (k : nat) (level : Z) : option Stats :=
  let '(results, t) := run_concurrent_benchmark (w k) level rps in
  match successful_of results with
  | [] => None
  | _ :: _ => Some (stats_of results t level)
  end.

Definition contribution (w : World) (rps : Z) (kl : nat * Z) : list Stats :=
  match batch_stats w rps (fst kl) (snd kl) with
  | Some s => [s]
  | None => []
  end.

(** The levels of a sweep with their positions, from position [k]. *)
Definition numbered (k : nat) (levels : list Z) : list (nat * Z) :=
  combine (seq k (List.length levels)) levels.

(** A list is ascending when its elements grow with the index. *)
Definition ascending (a : list Q) : Prop :=
  forall i j, (i <= j)%nat -> (j < List.length a)%nat ->
    at_index a i <= at_index a j.

(** The index below a virtual index, and the one interpolated towards. *)
Definition lower (h : Q) : nat := Z.to_nat (Qfloor h).
Definition upper (a : list Q) (h : Q) : nat := Nat.min (lower h + 1) (List.length a - 1).

(* ================================================================== *)
(** * The mean in binary64

    The exact mean of a list lies between its least and its greatest
    element.  The mean numpy computes is rounded twice, once in the sum
    and once in the division, and can leave that interval: three
    latencies of 0.1 s (0x1.999999999999ap-4) add up to
    0.30000000000000004, a third of which rounds to
    0.10000000000000002, the float just above 0.1. *)

Local Open Scope float_scope.

(** [np.add.reduce] over a short array: from left to right, from 0. *)
Definition f64_sum (l : list float) : float := fold_left PrimFloat.add l 0.

(** [len(l)] as a float. *)
Definition f64_len (l : list float) : float :=
  PrimFloat.of_uint63 (Uint63.of_Z (Z.of_nat (List.length l))).

(** [np.mean] *)
Definition np_mean_f64 (l : list float) : float := f64_sum l / f64_len l.

(** [np.max] and [np.min] on an array without nan. *)
Definition np_max_f64 (l : list float) : float :=
  fold_left (fun m x => if PrimFloat.ltb m x then x else m) (tl l) (hd 0 l).

Definition np_min_f64 (l : list float) : float :=
  fold_left (fun m x => if PrimFloat.ltb x m then x else m) (tl l) (hd 0 l).

(** An outcome, as far as the latency statistics read it. *)
Record Outcome64 : Type := mkOutcome64 {
  latency64 : float;
  success64 : bool
}.

(** The entries avg_latency, min_latency and max_latency of the record
    [analyze_results] returns, in binary64. *)
Definition latency_summary_f64 (results : list Outcome64)
    : option (float * float * float) :=
  let successful := filter (fun r => success64 r) results in
  match successful with
  | [] => None
  | _ :: _ =>
      let latencies := map latency64 successful in
      Some (np_mean_f64 latencies, np_min_f64 latencies, np_max_f64 latencies)
  end.

(** Three successful requests of 0.1 s each. *)
Definition tenths : list Outcome64 :=
  [ {| latency64 := 0x1.999999999999ap-4; success64 := true |};
    {| latency64 := 0x1.999999999999ap-4; success64 := true |};
    {| latency64 := 0x1.999999999999ap-4; success64 := true |} ].

Local Close Scope float_scope.

(* ================================================================== *)
(** * Sample runs *)

(** A request answered after [lat] seconds with [tokens] completion
    tokens. *)
Definition answered (lat : Q) (tokens : Z) : Exchange :=
  {| t_start := 0;
     t_end := lat;
     t_handler := lat;
     reply := Responded
       {| body_usage := Some {| usage_completion_tokens := Some tokens;
                                usage_total_tokens := Some (tokens + 7)%Z |};
          body_choices := Some [Some "Paris."%string] |} |}.

(** A request the transport gives up on. *)
Definition refused : Exchange :=
  {| t_start := 0;
     t_end := 1 # 100;
     t_handler := 1 # 100;
     reply := Failed "Cannot connect to host" |}.

(** Request [id] is answered after [id + 1] seconds with 10 tokens;
    the whole batch takes 5 seconds. *)
Definition steady_batch : Batch :=
  {| batch_session := fun id => answered (inject_Z (id + 1)) 10;
     gather_start := 0;
     gather_end := 5 |}.

Definition dead_batch : Batch :=
  {| batch_session := fun _ => refused;
     gather_start := 0;
     gather_end := 1 # 100 |}.

(** The server is down during the first batch and up afterwards. *)
Definition recovering_world : World :=
  fun k => match k with O => dead_batch | S _ => steady_batch end.

(** A body with neither usage nor choices, delivered after 2 seconds. *)
Definition bare : Exchange :=
  {| t_start := 0;
     t_end := 2;
     t_handler := 2;
     reply := Responded {| body_usage := None; body_choices := None |} |}.

(** A server that reports -5 completion tokens, after 2 seconds. *)
Definition miscounting : Session := fun _ => answered 2 (-5).

(** Only request 0 is answered. *)
Definition flaky_batch : Batch :=
  {| batch_session := fun id => if (id =? 0)%Z then answered 2 10 else refused;
     gather_start := 0;
     gather_end := 3 |}.

(** The server is up all along. *)
Definition steady_world : World := fun _ => steady_batch.

(** A body whose "usage" is null: the first [.get] on it raises, a
    tenth of a second after the body arrived. *)
Definition null_usage : Exchange :=
  {| t_start := 0;
     t_end := 2;
     t_handler := 21 # 10;
     reply := Unusable "'NoneType' object has no attribute 'get'" |}.

(** A body whose "choices" is the empty list. *)
Definition no_choice : Exchange :=
  {| t_start := 0;
     t_end := 2;
     t_handler := 21 # 10;
     reply := Responded
       {| body_usage := Some {| usage_completion_tokens := Some 10%Z;
                                usage_total_tokens := Some 17%Z |};
          body_choices := Some [] |} |}.

(** One request of each kind. *)
Definition mixed : Session :=
  fun id => if (id =? 0)%Z then refused
            else if (id =? 1)%Z then null_usage
            else if (id =? 2)%Z then no_choice
            else answered 2 10.

(** The five outcomes of a batch as objects, and the list of them at
    reference 5. *)
Definition five_outcomes : list Outcome :=
  fst (run_concurrent_benchmark steady_batch 1 5).

Definition five_objects : Interp :=
  {| heap := map Dict five_outcomes ++ [PyList [0; 1; 2; 3; 4]%nat];
     console := [] |}.

(* ================================================================== *)
(** * The report of main

    What main does around the sweep: the probe of the server before
    it, and the plots, the results file and the summary table after
    it.  Console output other than the rows of the summary table is
    left out. *)

Local Open Scope Q_scope.

(** [s['successful_requests'] / s['total_requests'] * 100]: true
    division of two integers, which raises on a zero divisor. *)
Definition success_rate (s : Stats) : exc Q :=
  r <- py_div (inject_Z (successful_requests s)) (inject_Z (total_requests s)) ;;
  Return (r * 100).

(** The answer to [session.get(".../models")]: a response with its
    status, or an exception. *)
Inductive Probe : Type :=
| Answered (status : Z)
| Unreachable (msg : string).

(** What main leaves behind. *)
Inductive Event : Type :=
| Exit (code : Z)                           (* sys.exit(code) *)
| Visualized (all_stats : list Stats)       (* create_visualizations(all_stats) *)
| Dumped (all_stats : list Stats)           (* json.dump(all_stats, f, indent=2) *)
| SummaryRow (level : Z) (avg_latency overall_throughput success_rate : Q).

(** [for s in all_stats: ...], the rows of the summary table. *)
Fixpoint summary (all_stats : list Stats) : exc (list Event) :=
  match all_stats with
  | [] => Return []
  | s :: rest =>
      rate <- success_rate s ;;
      rows <- summary rest ;;
      Return (SummaryRow (num_concurrent s) (avg_latency s)
                         (overall_throughput s) rate :: rows)
  end.

(** main: the probe, the sweep, and the report when [all_stats] is not
    empty. *)
Definition run_main (probe : Probe) (w : World) : exc (list Event) :=
  match probe with
  | Unreachable _ => Return [Exit 1]
  | Answered status =>
      if (status =? 200)%Z then
        all_stats <- main w ;;
        match all_stats with
        | [] => Return []
        | _ :: _ =>
            rows <- summary all_stats ;;
            Return (Visualized all_stats :: Dumped all_stats :: rows)
        end
      else Return [Exit 1]
  end.

(** ** Notions used to state properties of the above *)

(** Two records with the same integers and equal rationals. *)
Definition stats_eq (s s' : Stats) : Prop :=
  num_concurrent s = num_concurrent s'
  /\ total_requests s = total_requests s'
  /\ successful_requests s = successful_requests s'
  /\ failed_requests s = failed_requests s'
  /\ total_time s == total_time s'
  /\ avg_latency s == avg_latency s'
  /\ median_latency s == median_latency s'
  /\ p95_latency s == p95_latency s'
  /\ p99_latency s == p99_latency s'
  /\ min_latency s == min_latency s'
  /\ max_latency s == max_latency s'
  /\ avg_tokens_per_second s == avg_tokens_per_second s'
  /\ total_tokens_generated s = total_tokens_generated s'
  /\ overall_throughput s == overall_throughput s'.

(** A row of the summary table for the record [s]. *)
Definition row_of (s : Stats) (row : Event) : Prop :=
  exists rate,
    row = SummaryRow (num_concurrent s) (avg_latency s) (overall_throughput s) rate
    /\ success_rate s = Return rate /\ 0 < rate /\ rate <= 100.

(** [l] is [l'] with some elements left out. *)
Inductive Subseq {A : Type} : list A -> list A -> Prop :=
| Subseq_nil : Subseq [] []
| Subseq_skip x l l' : Subseq l l' -> Subseq l (x :: l')
| Subseq_keep x l l' : Subseq l l' -> Subseq (x :: l) (x :: l').

(** The world a sweep sees after [n] batches. *)
Definition later (n : nat) (w : World) : World := fun k => w (n + k)%nat.

(** A record with one more request, a failed one, counted. *)
Definition count_failure (s : Stats) : Stats :=
  {| num_concurrent := num_concurrent s;
     total_requests := total_requests s + 1;
     successful_requests := successful_requests s;
     failed_requests := failed_requests s + 1;
     total_time := total_time s;
     avg_latency := avg_latency s;
     median_latency := median_latency s;
     p95_latency := p95_latency s;
     p99_latency := p99_latency s;
     min_latency := min_latency s;
     max_latency := max_latency s;
     avg_tokens_per_second := avg_tokens_per_second s;
     total_tokens_generated := total_tokens_generated s;
     overall_throughput := overall_throughput s |}.

(* ================================================================== *)
(** * The request ids and prompts of one batch *)

Local Open Scope Z_scope.

Lemma count_from_length c k : List.length (count_from c k) = k.
Proof. revert c; induction k; simpl; intros; [reflexivity | now rewrite IHk]. Qed.

Lemma count_from_app c a b :
  count_from c (a + b) = count_from c a ++ count_from (c + Z.of_nat a) b.
Proof.
  revert c; induction a as [|a IH]; intros c.
  - simpl. now rewrite Z.add_0_r.
  - cbn [Nat.add count_from app]. rewrite IH. do 3 f_equal. lia.
Qed.

Lemma count_from_seq c k :
  count_from c k = map (fun i => c + Z.of_nat i) (seq 0 k).
Proof.
  revert c; induction k as [|k IH]; intros c; [reflexivity|].
  cbn [count_from seq map]. rewrite IH, <- seq_shift, map_map.
  f_equal; [lia|]. apply map_ext; intros; lia.
Qed.

Lemma count_from_range k : count_from 0 k = py_range (Z.of_nat k).
Proof.
  unfold py_range. rewrite Nat2Z.id, count_from_seq. now apply map_ext.
Qed.

Lemma count_from_In c k x : In x (count_from c k) <-> c <= x < c + Z.of_nat k.
Proof.
  revert c; induction k as [|k IH]; intros c; cbn [count_from In].
  - lia.
  - rewrite IH. lia.
Qed.

Lemma count_from_NoDup c k : NoDup (count_from c k).
Proof.
  revert c; induction k as [|k IH]; intros c; cbn [count_from]; constructor.
  - rewrite count_from_In. lia.
  - apply IH.
Qed.

Lemma count_from_nth c k i :
  (i < k)%nat -> nth i (count_from c k) 0 = c + Z.of_nat i.
Proof.
  revert c i; induction k as [|k IH]; intros c i Hi; [lia|].
  destruct i as [|i]; cbn [count_from nth]; [lia|].
  rewrite IH by lia. lia.
Qed.

Lemma py_range_length n : List.length (py_range n) = Z.to_nat n.
Proof. unfold py_range. now rewrite length_map, length_seq. Qed.

(** The inner loop appends one task per iteration, numbered from the
    counter's value on entry. *)
Lemma inner_loop_spec (A : Type) (l : list A) tasks c :
  fold_left (fun st _ => create_task st) l (tasks, c)
  = (tasks ++ map task_of (count_from c (List.length l)), c + Z.of_nat (List.length l)).
Proof.
  revert tasks c; induction l as [|x l IH]; intros tasks c.
  - simpl. now rewrite app_nil_r, Z.add_0_r.
  - cbn [fold_left List.length count_from map].
    change (create_task (tasks, c)) with (tasks ++ [task_of c], c + 1).
    rewrite IH, <- app_assoc. cbn [app]. f_equal. lia.
Qed.

Lemma session_loop_spec m tasks c :
  session_loop m (tasks, c)
  = (tasks ++ map task_of (count_from c (Z.to_nat m)), c + Z.of_nat (Z.to_nat m)).
Proof.
  unfold session_loop. rewrite inner_loop_spec. now rewrite py_range_length.
Qed.

Lemma outer_loop_spec (A : Type) (l : list A) m tasks c :
  fold_left (fun st _ => session_loop m st) l (tasks, c)
  = (tasks ++ map task_of (count_from c (List.length l * Z.to_nat m)),
     c + Z.of_nat (List.length l * Z.to_nat m)).
Proof.
  revert tasks c; induction l as [|x l IH]; intros tasks c.
  - simpl. now rewrite app_nil_r, Z.add_0_r.
  - cbn [fold_left List.length Nat.mul]. rewrite session_loop_spec, IH.
    rewrite <- app_assoc, <- map_app, <- count_from_app. f_equal. lia.
Qed.

(** The tasks of a batch, in closed form. *)
Lemma build_tasks_spec n m :
  build_tasks n m = map task_of (count_from 0 (Z.to_nat n * Z.to_nat m)).
Proof.
  unfold build_tasks. rewrite outer_loop_spec, py_range_length. reflexivity.
Qed.

Lemma build_tasks_ids n m :
  map task_request_id (build_tasks n m) = count_from 0 (Z.to_nat n * Z.to_nat m).
Proof.
  rewrite build_tasks_spec, map_map. cbn [task_of task_request_id]. apply map_id.
Qed.

Lemma send_request_id s p mt te id :
  request_id (send_completion_request s p mt te id) = id.
Proof.
  unfold send_completion_request, try_request.
  destruct (reply (s id)); cbn [bind]; [|reflexivity|reflexivity].
  destruct (tokens_per_second_expr _ _); cbn [bind]; [|reflexivity].
  destruct (first_choice_text _); reflexivity.
Qed.

Lemma gather_ids s tasks :
  map request_id (gather s tasks) = map task_request_id tasks.
Proof.
  unfold gather. rewrite map_map. apply map_ext. intros t. apply send_request_id.
Qed.

Lemma run_length w n m :
  List.length (fst (run_concurrent_benchmark w n m)) = (Z.to_nat n * Z.to_nat m)%nat.
Proof.
  cbn [run_concurrent_benchmark fst]. unfold gather.
  now rewrite length_map, build_tasks_spec, length_map, count_from_length.
Qed.

Lemma pool_size_10 : pool_size = 10.
Proof. reflexivity. Qed.

Lemma prompt_for_in_pool id :
  prompt_at (id mod pool_size) = Some (prompt_for id).
Proof.
  unfold prompt_at, prompt_for. apply nth_error_nth'.
  assert (0 <= id mod pool_size < pool_size) by (apply Z.mod_pos_bound; reflexivity).
  unfold pool_size in *. lia.
Qed.

(** C1: for positive N and M a batch creates exactly N*M tasks, whose
    request ids are 0, 1, ..., N*M-1 in submission order (so without
    duplicate or gap), each with the prompt of the pool at index
    id mod 10; the gathered outcomes carry the same ids in the same
    order. *)
Theorem batch_ids_and_prompts (w : Batch) (N M : Z) :
  0 < N -> 0 < M ->
  let tasks := build_tasks N M in
  let results := fst (run_concurrent_benchmark w N M) in
  py_len tasks = N * M
  /\ map task_request_id tasks = py_range (N * M)
  /\ NoDup (map task_request_id tasks)
  /\ (forall id, In id (map task_request_id tasks) <-> 0 <= id < N * M)
  /\ (forall i, (i < List.length tasks)%nat ->
        task_request_id (nth i tasks (task_of 0)) = Z.of_nat i)
  /\ pool_size = 10
  /\ (forall t, In t tasks ->
        prompt_at (task_request_id t mod 10) = Some (task_prompt t))
  /\ py_len results = N * M
  /\ map request_id results = py_range (N * M).
Proof.
  intros HN HM tasks results.
  assert (Hk : Z.of_nat (Z.to_nat N * Z.to_nat M) = N * M) by lia.
  assert (Hids : map task_request_id tasks
                 = count_from 0 (Z.to_nat N * Z.to_nat M))
    by apply build_tasks_ids.
  assert (Hlen : List.length tasks = (Z.to_nat N * Z.to_nat M)%nat).
  { subst tasks. now rewrite build_tasks_spec, length_map, count_from_length. }
  split; [|split; [|split; [|split; [|split; [|split; [|split; [|split]]]]]]].
  - unfold py_len. rewrite Hlen. exact Hk.
  - rewrite Hids, count_from_range, Hk. reflexivity.
  - rewrite Hids. apply count_from_NoDup.
  - intros id. rewrite Hids, count_from_In. lia.
  - intros i Hi.
    rewrite <- (map_nth task_request_id), Hids.
    cbn [task_of task_request_id]. rewrite count_from_nth by lia. lia.
  - reflexivity.
  - intros t Ht. subst tasks. rewrite build_tasks_spec in Ht.
    apply in_map_iff in Ht. destruct Ht as [id [<- _]].
    cbn [task_of task_request_id task_prompt].
    rewrite <- pool_size_10. apply prompt_for_in_pool.
  - subst results. cbn [run_concurrent_benchmark fst]. unfold py_len, gather.
    rewrite length_map. fold tasks. rewrite Hlen. exact Hk.
  - subst results. cbn [run_concurrent_benchmark fst].
    rewrite gather_ids. fold tasks. rewrite Hids, count_from_range, Hk. reflexivity.
Qed.

(* ================================================================== *)
(** * The guarded rates *)

Local Open Scope Q_scope.

Lemma Qltb_lt x y : Qltb x y = true <-> x < y.
Proof.
  unfold Qltb. rewrite negb_true_iff. split; intros H.
  - apply Qnot_le_lt. intros Hle. apply Qle_bool_iff in Hle. congruence.
  - destruct (Qle_bool y x) eqn:E; [|reflexivity].
    apply Qle_bool_iff in E. exfalso. now apply (Qlt_not_le x y).
Qed.

Lemma Qltb_nlt x y : Qltb x y = false <-> ~ x < y.
Proof.
  rewrite <- Qltb_lt. destruct (Qltb x y); split; intros; congruence.
Qed.

Lemma py_div_pos x y : 0 < y -> py_div x y = Return (x / y).
Proof.
  intros Hy. unfold py_div. destruct (Qeq_bool y 0) eqn:E; [|reflexivity].
  apply Qeq_bool_eq in E. rewrite E in Hy. now apply Qlt_irrefl in Hy.
Qed.

(** The guard [latency > 0] keeps the division away from zero: the
    expression always has a value. *)
Lemma tokens_per_second_expr_value ct lat :
  tokens_per_second_expr ct lat
  = Return (if Qltb 0 lat then inject_Z ct / lat else 0).
Proof.
  unfold tokens_per_second_expr. destruct (Qltb 0 lat) eqn:E; [|reflexivity].
  apply py_div_pos. now apply Qltb_lt.
Qed.

Lemma overall_throughput_expr_value tokens t :
  overall_throughput_expr tokens t
  = Return (if Qltb 0 t then inject_Z tokens / t else 0).
Proof. exact (tokens_per_second_expr_value tokens t). Qed.

Lemma Qdiv_nonneg x y : 0 <= x -> 0 < y -> 0 <= x / y.
Proof.
  intros Hx Hy. apply Qle_shift_div_l; [exact Hy|]. now rewrite Qmult_0_l.
Qed.

Lemma inject_Z_nonneg z : (0 <= z)%Z -> 0 <= inject_Z z.
Proof. intros H. change 0 with (inject_Z 0). now rewrite <- Zle_Qle. Qed.

(** The two shapes of an outcome. *)
Lemma send_completion_request_cases s p mt te id :
  let x := s id in
  let o := send_completion_request s p mt te id in
  (exists b text,
      reply x = Responded b
      /\ first_choice_text b = Return text
      /\ success o = true
      /\ latency o = t_end x - t_start x
      /\ completion_tokens o = usage_field b usage_completion_tokens
      /\ total_tokens o = usage_field b usage_total_tokens
      /\ tokens_per_second o
         = (if Qltb 0 (latency o)
            then inject_Z (completion_tokens o) / latency o else 0)
      /\ response o = Some text /\ error o = None)
  \/ (exists e,
      try_request x p id = Raise e
      /\ e <> ZeroDivisionError
      /\ success o = false
      /\ latency o = handler_time x - t_start x
      /\ completion_tokens o = 0%Z
      /\ total_tokens o = 0%Z
      /\ tokens_per_second o = 0
      /\ response o = None /\ error o = Some (exn_str e)).
Proof.
  intros x o. subst o x. unfold send_completion_request, try_request.
  destruct (reply (s id)) as [b|msg|msg] eqn:Hr; cbn [bind].
  - rewrite tokens_per_second_expr_value. cbn [bind].
    destruct (first_choice_text b) as [text|e] eqn:Ht; cbn [bind].
    + left. exists b, text. cbn. repeat split; reflexivity || assumption.
    + right. exists e. cbn. repeat split; try reflexivity.
      unfold first_choice_text in Ht.
      destruct (body_choices b) as [[|c cs]|]; congruence.
  - right. exists (BodyError msg). cbn. repeat split; try reflexivity.
    congruence.
  - right. exists (TransportError msg). cbn. repeat split; try reflexivity.
    congruence.
Qed.

(** C2, as the code has it: tokens_per_second is completion_tokens /
    latency when the latency is positive and 0 otherwise, the division
    is never by zero (the expression never raises and no failure is a
    ZeroDivisionError), and it is 0 on every failed outcome.  It is not
    negative when the completion_tokens of the outcome is not negative:
    the count is the server's, passed on unchecked. *)
Theorem tokens_per_second_spec
    (s : Session) (p : string) (mt : Z) (te : Q) (id : Z) :
  let o := send_completion_request s p mt te id in
  (0 < latency o ->
     tokens_per_second o == inject_Z (completion_tokens o) / latency o)
  /\ (~ 0 < latency o -> tokens_per_second o = 0)
  /\ ((0 <= completion_tokens o)%Z -> 0 <= tokens_per_second o)
  /\ (forall ct lat, ~ raised (tokens_per_second_expr ct lat))
  /\ (forall e, try_request (s id) p id = Raise e -> e <> ZeroDivisionError)
  /\ (success o = false -> tokens_per_second o = 0).
Proof.
  intros o.
  destruct (send_completion_request_cases s p mt te id)
    as [(b & text & Hr & Ht & Hs & Hl & Hc & Htt & Htps & Hresp & Herr)
       |(e & Hraise & Hne & Hs & Hl & Hc & Htt & Htps & Hresp & Herr)];
    fold o in Hs, Hl, Hc, Htt, Htps, Hresp, Herr.
  - split; [|split; [|split; [|split; [|split]]]].
    + intros Hpos. rewrite Htps. apply Qltb_lt in Hpos. rewrite Hpos. reflexivity.
    + intros Hn. rewrite Htps. apply Qltb_nlt in Hn. now rewrite Hn.
    + intros Hct. rewrite Htps.
      destruct (Qltb 0 (latency o)) eqn:E; [|apply Qle_refl].
      apply Qdiv_nonneg; [|now apply Qltb_lt].
      now apply inject_Z_nonneg.
    + intros ct lat [e He]. rewrite tokens_per_second_expr_value in He. discriminate.
    + intros e He. unfold try_request in He. rewrite Hr in He. cbn [bind] in He.
      rewrite tokens_per_second_expr_value, Ht in He. discriminate.
    + rewrite Hs. discriminate.
  - split; [|split; [|split; [|split; [|split]]]].
    + intros Hpos. rewrite Htps, Hc. unfold Qdiv. now rewrite Qmult_0_l.
    + intros _. exact Htps.
    + intros _. rewrite Htps. apply Qle_refl.
    + intros ct lat [e' He]. rewrite tokens_per_second_expr_value in He. discriminate.
    + intros e' He'. congruence.
    + intros _. exact Htps.
Qed.

(* ================================================================== *)
(** * The aggregation in closed form *)

Lemma np_mean_cons x l : np_mean (x :: l) = Some (mean (x :: l)).
Proof. reflexivity. Qed.

Lemma np_min_cons x l : np_min (x :: l) = Some (minimum (x :: l)).
Proof. reflexivity. Qed.

Lemma np_max_cons x l : np_max (x :: l) = Some (maximum (x :: l)).
Proof. reflexivity. Qed.

Lemma np_median_cons x l : np_median (x :: l) = Some (median (x :: l)).
Proof.
  unfold np_median, median.
  destruct (Nat.even (List.length (sort (x :: l)))); reflexivity.
Qed.

Lemma np_percentile_cons x l q :
  np_percentile (x :: l) q = Some (percentile (x :: l) q).
Proof. reflexivity. Qed.

Lemma analyze_results_none results t n :
  successful_of results = [] -> analyze_results results t n = Return None.
Proof.
  unfold successful_of, analyze_results. intros ->. reflexivity.
Qed.

Lemma analyze_results_some results t n :
  successful_of results <> [] ->
  analyze_results results t n = Return (Some (stats_of results t n)).
Proof.
  unfold analyze_results, stats_of, successful_of, failed_of. intros Hne.
  destruct (filter (fun r => success r) results) as [|o os] eqn:E; [congruence|].
  cbn [map].
  rewrite !np_mean_cons, np_median_cons, !np_percentile_cons, np_min_cons,
    np_max_cons.
  cbn [np bind]. rewrite overall_throughput_expr_value. cbn [bind].
  reflexivity.
Qed.

Lemma successful_of_nil_iff results :
  successful_of results = [] <-> forall o, In o results -> success o = false.
Proof.
  unfold successful_of. induction results as [|r rs IH]; cbn [filter].
  - split; [intros _ o []|reflexivity].
  - destruct (success r) eqn:E.
    + split; [discriminate|]. intros H. specialize (H r (or_introl eq_refl)).
      congruence.
    + rewrite IH. split.
      * intros H o [<-|Ho]; auto.
      * intros H o Ho. apply H. now right.
Qed.

Lemma successful_of_cons_iff results :
  successful_of results <> [] <-> exists o, In o results /\ success o = true.
Proof.
  split.
  - intros Hne. destruct (successful_of results) as [|o os] eqn:E; [congruence|].
    assert (Hin : In o (successful_of results)) by (rewrite E; now left).
    exists o. unfold successful_of in Hin. now apply filter_In in Hin.
  - intros [o [Ho Hs]] Hnil. rewrite successful_of_nil_iff in Hnil.
    rewrite (Hnil o Ho) in Hs. discriminate.
Qed.

Lemma analyze_results_never_raises results t n :
  ~ raised (analyze_results results t n).
Proof.
  intros [e He]. destruct (successful_of results) as [|o os] eqn:E.
  - rewrite analyze_results_none in He by assumption. discriminate.
  - rewrite analyze_results_some in He by congruence. discriminate.
Qed.

Lemma partition_lengths results :
  py_len results = (py_len (successful_of results) + py_len (failed_of results))%Z.
Proof.
  unfold py_len, successful_of, failed_of.
  induction results as [|r rs IH]; [reflexivity|].
  cbn [filter List.length]. destruct (success r); cbn [negb List.length]; lia.
Qed.

(** C3: a batch without a successful outcome (every outcome failed, or
    no outcome at all) makes the aggregation return None, without any
    record and without raising; a batch with a successful outcome makes
    it return a record, every statistic of which is a number, with
    total = successful + failed and at least one success counted. *)
Theorem analyze_results_empty_or_full
    (results : list Outcome) (t : Q) (n : Z) :
  ((forall o, In o results -> success o = false) ->
     analyze_results results t n = Return None)
  /\ ((exists o, In o results /\ success o = true) ->
        exists st : Stats,
          analyze_results results t n = Return (Some st)
          /\ np_mean (map latency (successful_of results)) = Some (avg_latency st)
          /\ np_median (map latency (successful_of results)) = Some (median_latency st)
          /\ np_percentile (map latency (successful_of results)) 95 = Some (p95_latency st)
          /\ np_percentile (map latency (successful_of results)) 99 = Some (p99_latency st)
          /\ np_min (map latency (successful_of results)) = Some (min_latency st)
          /\ np_max (map latency (successful_of results)) = Some (max_latency st)
          /\ np_mean (map tokens_per_second (successful_of results))
             = Some (avg_tokens_per_second st)
          /\ (total_requests st = successful_requests st + failed_requests st)%Z
          /\ (1 <= successful_requests st)%Z)
  /\ ~ raised (analyze_results results t n).
Proof.
  split; [|split].
  - intros H. apply analyze_results_none. now apply successful_of_nil_iff.
  - intros H. apply successful_of_cons_iff in H.
    exists (stats_of results t n). split; [now apply analyze_results_some|].
    pose proof (partition_lengths results) as Hpart.
    unfold stats_of.
    cbn [avg_latency median_latency p95_latency p99_latency min_latency
         max_latency avg_tokens_per_second total_requests successful_requests
         failed_requests].
    destruct (successful_of results) as [|o os]; [congruence|]. cbn [map].
    rewrite np_median_cons.
    repeat (split; [reflexivity|]).
    split; [exact Hpart|].
    unfold py_len. cbn [List.length]. lia.
  - apply analyze_results_never_raises.
Qed.

(** C8: with a successful outcome in the batch, overall_throughput is
    the sum of the successful outcomes' completion_tokens divided by
    the elapsed span when the span is positive and 0 otherwise, and the
    computation raises nothing, a division by zero in particular. *)
Theorem overall_throughput_guarded (results : list Outcome) (t : Q) (n : Z) :
  (exists o, In o results /\ success o = true) ->
  exists st : Stats,
    analyze_results results t n = Return (Some st)
    /\ total_tokens_generated st
       = py_sum (map completion_tokens (successful_of results))
    /\ (0 < t -> overall_throughput st == inject_Z (total_tokens_generated st) / t)
    /\ (~ 0 < t -> overall_throughput st = 0)
    /\ ~ raised (overall_throughput_expr (total_tokens_generated st) t)
    /\ ~ raised (analyze_results results t n).
Proof.
  intros H. apply successful_of_cons_iff in H.
  exists (stats_of results t n).
  split; [now apply analyze_results_some|].
  split; [reflexivity|].
  unfold stats_of; cbn [overall_throughput total_tokens_generated].
  split; [|split; [|split]].
  - intros Hpos. apply Qltb_lt in Hpos. rewrite Hpos. reflexivity.
  - intros Hn. apply Qltb_nlt in Hn. now rewrite Hn.
  - intros [e He]. rewrite overall_throughput_expr_value in He. discriminate.
  - apply analyze_results_never_raises.
Qed.

Lemma successful_of_all results :
  Forall (fun o => success o = true) results -> successful_of results = results.
Proof.
  unfold successful_of. induction 1 as [|o os Ho _ IH]; [reflexivity|].
  cbn [filter]. now rewrite Ho, IH.
Qed.

(** C5: five successful outcomes with latencies 1, 2, 3, 4, 5 seconds
    and 10 completion tokens each, aggregated with an elapsed time of 5
    seconds, give avg_latency 3, median_latency 3,
    total_tokens_generated 50 and overall_throughput 10. *)
Theorem scenario_five_latencies (results : list Outcome) (n : Z) :
  Forall (fun o => success o = true) results ->
  map latency results = [1; 2; 3; 4; 5] ->
  map completion_tokens results = [10; 10; 10; 10; 10]%Z ->
  exists st : Stats,
    analyze_results results 5 n = Return (Some st)
    /\ avg_latency st == 3
    /\ median_latency st == 3
    /\ total_tokens_generated st = 50%Z
    /\ overall_throughput st == 10.
Proof.
  intros Hall Hlat Htok.
  pose proof (successful_of_all results Hall) as Hs.
  exists (stats_of results 5 n). split.
  - apply analyze_results_some. rewrite Hs. intros ->. discriminate.
  - unfold stats_of.
    cbn [avg_latency median_latency total_tokens_generated overall_throughput].
    rewrite Hs, Hlat, Htok. vm_compute. repeat split; reflexivity.
Qed.

(* ================================================================== *)
(** * The sweep *)

Lemma analyze_results_batch_stats w rps k level :
  analyze_results (fst (run_concurrent_benchmark (w k) level rps))
                  (snd (run_concurrent_benchmark (w k) level rps)) level
  = Return (batch_stats w rps k level).
Proof.
  unfold batch_stats.
  destruct (run_concurrent_benchmark (w k) level rps) as [results t]. cbn [fst snd].
  destruct (successful_of results) as [|o os] eqn:E.
  - now apply analyze_results_none.
  - apply analyze_results_some. congruence.
Qed.

Lemma sweep_step_spec w rps all_stats k level :
  sweep_step w rps (Return (all_stats, k)) level
  = Return (all_stats ++ contribution w rps (k, level), S k).
Proof.
  unfold sweep_step, contribution. cbn [bind fst snd].
  pose proof (analyze_results_batch_stats w rps k level) as H.
  destruct (run_concurrent_benchmark (w k) level rps) as [results t].
  cbn [fst snd] in H. rewrite H. cbn [bind].
  destruct (batch_stats w rps k level); [reflexivity|].
  now rewrite app_nil_r.
Qed.

Lemma sweep_loop_spec w rps levels all_stats k :
  fold_left (sweep_step w rps) levels (Return (all_stats, k))
  = Return (all_stats ++ flat_map (contribution w rps) (numbered k levels),
            (k + List.length levels)%nat).
Proof.
  revert all_stats k. induction levels as [|level ls IH]; intros all_stats k.
  - cbn. now rewrite app_nil_r, Nat.add_0_r.
  - cbn [fold_left]. rewrite sweep_step_spec, IH.
    unfold numbered. cbn [List.length seq combine flat_map].
    rewrite <- app_assoc. do 2 f_equal. lia.
Qed.

Lemma sweep_spec w levels rps :
  sweep w levels rps = Return (flat_map (contribution w rps) (numbered 0 levels)).
Proof.
  unfold sweep. rewrite sweep_loop_spec. reflexivity.
Qed.

Lemma batch_stats_none w rps k level :
  batch_stats w rps k level = None
  <-> forall o, In o (fst (run_concurrent_benchmark (w k) level rps)) ->
        success o = false.
Proof.
  unfold batch_stats.
  destruct (run_concurrent_benchmark (w k) level rps) as [results t]. cbn [fst].
  rewrite <- successful_of_nil_iff.
  destruct (successful_of results); split; congruence.
Qed.

Lemma batch_stats_level w rps k level s :
  batch_stats w rps k level = Some s -> num_concurrent s = level.
Proof.
  unfold batch_stats.
  destruct (run_concurrent_benchmark (w k) level rps) as [results t].
  destruct (successful_of results); [discriminate|].
  intros H. injection H as <-. reflexivity.
Qed.

Lemma batch_stats_some w rps k level :
  0 < inject_Z level -> 0 < inject_Z rps ->
  (forall o, In o (fst (run_concurrent_benchmark (w k) level rps)) ->
     success o = true) ->
  exists s, batch_stats w rps k level = Some s /\ num_concurrent s = level.
Proof.
  intros Hl Hr Hall.
  destruct (batch_stats w rps k level) as [s|] eqn:E.
  - exists s. split; [reflexivity|]. now apply batch_stats_level in E.
  - exfalso. rewrite batch_stats_none in E.
    change 0 with (inject_Z 0) in Hl, Hr. rewrite <- Zlt_Qlt in Hl, Hr.
    pose proof (run_length (w k) level rps) as Hlen.
    destruct (fst (run_concurrent_benchmark (w k) level rps)) as [|o os].
    + cbn in Hlen. nia.
    + specialize (Hall o (or_introl eq_refl)).
      specialize (E o (or_introl eq_refl)). congruence.
Qed.

(** C4: the run is the sequence of the levels' records in the order of
    the levels, a level whose batch has no successful outcome giving
    none (and the levels after it run all the same); over levels 1, 2
    with the first batch failing entirely and the second succeeding
    entirely the run is exactly one record, that of level 2. *)
Theorem sweep_omits_empty_levels (w : World) (rps : Z) :
  (forall levels,
     sweep w levels rps
     = Return (flat_map (contribution w rps) (numbered 0 levels)))
  /\ (forall k level,
        (forall o, In o (fst (run_concurrent_benchmark (w k) level rps)) ->
           success o = false) ->
        analyze_results (fst (run_concurrent_benchmark (w k) level rps))
                        (snd (run_concurrent_benchmark (w k) level rps)) level
        = Return None
        /\ contribution w rps (k, level) = [])
  /\ (forall k level s,
        batch_stats w rps k level = Some s ->
        contribution w rps (k, level) = [s] /\ num_concurrent s = level)
  /\ ((0 < rps)%Z ->
      (forall o, In o (fst (run_concurrent_benchmark (w 0%nat) 1 rps)) ->
         success o = false) ->
      (forall o, In o (fst (run_concurrent_benchmark (w 1%nat) 2 rps)) ->
         success o = true) ->
      exists st : Stats,
        sweep w [1; 2]%Z rps = Return [st] /\ num_concurrent st = 2%Z).
Proof.
  split; [|split; [|split]].
  - intros levels. apply sweep_spec.
  - intros k level Hfail. apply batch_stats_none in Hfail.
    rewrite analyze_results_batch_stats. unfold contribution. cbn [fst snd].
    now rewrite Hfail.
  - intros k level s Hs. unfold contribution. cbn [fst snd]. rewrite Hs.
    split; [reflexivity|]. now apply batch_stats_level in Hs.
  - intros Hrps Hfail Hok.
    apply batch_stats_none in Hfail.
    destruct (batch_stats_some w rps 1%nat 2%Z) as [st [Hst Hlevel]];
      [reflexivity| |exact Hok|].
    { change 0 with (inject_Z 0). now rewrite <- Zlt_Qlt. }
    exists st. split; [|exact Hlevel].
    rewrite sweep_spec. unfold numbered, contribution.
    cbn [List.length seq combine flat_map fst snd].
    now rewrite Hfail, Hst.
Qed.

Lemma sweep_never_raises w levels rps : ~ raised (sweep w levels rps).
Proof. intros [e He]. rewrite sweep_spec in He. discriminate. Qed.

(* ================================================================== *)
(** * Request ids across the batches of a sweep *)

(** C6, as the code has it: the request ids of every batch of a sweep
    are non-negative and pairwise distinct within that batch; they are
    the integers from 0 up to the batch size, the counter starting at 0
    again for every batch. *)
Theorem request_ids_unique_within_batch (levels : list Z) (rps : Z) :
  Forall (fun ids =>
            NoDup ids
            /\ Forall (fun id => (0 <= id)%Z) ids
            /\ exists level, In level levels
                 /\ ids = count_from 0 (Z.to_nat level * Z.to_nat rps))
         (sweep_request_ids levels rps).
Proof.
  unfold sweep_request_ids. apply Forall_forall. intros ids Hin.
  apply in_map_iff in Hin. destruct Hin as [level [<- Hlevel]].
  rewrite build_tasks_ids. split; [apply count_from_NoDup|]. split.
  - apply Forall_forall. intros id Hid. apply count_from_In in Hid. lia.
  - exists level. split; [exact Hlevel|reflexivity].
Qed.

(** C6, as stated, fails on the sweep main runs: the id 0 is handed out
    in the batch of level 1 and again in the batch of level 2. *)
Lemma request_ids_repeat_across_batches :
  List.nth 0 (sweep_request_ids concurrency_levels requests_per_session) []
    = [0; 1; 2; 3; 4]%Z
  /\ List.nth 1 (sweep_request_ids concurrency_levels requests_per_session) []
    = [0; 1; 2; 3; 4; 5; 6; 7; 8; 9]%Z
  /\ ~ NoDup (List.concat (sweep_request_ids concurrency_levels requests_per_session)).
Proof.
  split; [reflexivity|]. split; [reflexivity|].
  intros H. vm_compute in H. inversion H as [|x l Hnotin _]; subst.
  apply Hnotin. do 4 right. left. reflexivity.
Qed.

(* ================================================================== *)
(** * Order statistics *)

Section OrderStatistics.

Local Open Scope Q_scope.

(** ** Minimum, maximum and mean *)

Lemma fold_min_le_acc l acc : fold_left Qmin l acc <= acc.
Proof.
  revert acc; induction l as [|x l IH]; intros acc; cbn [fold_left].
  - apply Qle_refl.
  - eapply Qle_trans; [apply IH|]. apply Q.le_min_l.
Qed.

Lemma fold_min_le_In l acc x : In x l -> fold_left Qmin l acc <= x.
Proof.
  revert acc; induction l as [|y l IH]; intros acc; [intros []|].
  cbn [fold_left]. intros [->|Hin].
  - eapply Qle_trans; [apply fold_min_le_acc|]. apply Q.le_min_r.
  - now apply IH.
Qed.

Lemma fold_max_ge_acc l acc : acc <= fold_left Qmax l acc.
Proof.
  revert acc; induction l as [|x l IH]; intros acc; cbn [fold_left].
  - apply Qle_refl.
  - eapply Qle_trans; [|apply IH]. apply Q.le_max_l.
Qed.

Lemma fold_max_ge_In l acc x : In x l -> x <= fold_left Qmax l acc.
Proof.
  revert acc; induction l as [|y l IH]; intros acc; [intros []|].
  cbn [fold_left]. intros [->|Hin].
  - eapply Qle_trans; [|apply fold_max_ge_acc]. apply Q.le_max_r.
  - now apply IH.
Qed.

Lemma minimum_le l x : In x l -> minimum l <= x.
Proof.
  destruct l as [|y l]; [intros []|]. unfold minimum; cbn [hd tl].
  intros [->|Hin]; [apply fold_min_le_acc|now apply fold_min_le_In].
Qed.

Lemma maximum_ge l x : In x l -> x <= maximum l.
Proof.
  destruct l as [|y l]; [intros []|]. unfold maximum; cbn [hd tl].
  intros [->|Hin]; [apply fold_max_ge_acc|now apply fold_max_ge_In].
Qed.

Lemma Qlen_cons (x : Q) l : Qlen (x :: l) == Qlen l + 1.
Proof.
  unfold Qlen. cbn [List.length]. rewrite Nat2Z.inj_succ, <- Z.add_1_r.
  now rewrite inject_Z_plus.
Qed.

Lemma Qlen_pos (x : Q) l : 0 < Qlen (x :: l).
Proof.
  unfold Qlen. change 0 with (inject_Z 0). rewrite <- Zlt_Qlt.
  cbn [List.length]. lia.
Qed.

Lemma fold_sum_lower lo l acc :
  (forall x, In x l -> lo <= x) -> acc + lo * Qlen l <= fold_left Qplus l acc.
Proof.
  revert acc; induction l as [|y l IH]; intros acc Hlo; cbn [fold_left].
  - unfold Qlen; cbn. rewrite Qmult_0_r, Qplus_0_r. apply Qle_refl.
  - rewrite Qlen_cons.
    assert (Hy : lo <= y) by (apply Hlo; now left).
    assert (IH' := IH (acc + y) (fun x Hx => Hlo x (or_intror Hx))).
    lra.
Qed.

Lemma fold_sum_upper hi l acc :
  (forall x, In x l -> x <= hi) -> fold_left Qplus l acc <= acc + hi * Qlen l.
Proof.
  revert acc; induction l as [|y l IH]; intros acc Hhi; cbn [fold_left].
  - unfold Qlen; cbn. rewrite Qmult_0_r, Qplus_0_r. apply Qle_refl.
  - rewrite Qlen_cons.
    assert (Hy : y <= hi) by (apply Hhi; now left).
    assert (IH' := IH (acc + y) (fun x Hx => Hhi x (or_intror Hx))).
    lra.
Qed.

Lemma mean_between l :
  l <> [] -> minimum l <= mean l /\ mean l <= maximum l.
Proof.
  destruct l as [|y l]; [congruence|]. intros _.
  pose proof (Qlen_pos y l) as Hpos. unfold mean, Qsum. split.
  - apply Qle_shift_div_l; [exact Hpos|].
    pose proof (fold_sum_lower (minimum (y :: l)) (y :: l) 0
                  (fun x Hx => minimum_le _ x Hx)) as H.
    lra.
  - apply Qle_shift_div_r; [exact Hpos|].
    pose proof (fold_sum_upper (maximum (y :: l)) (y :: l) 0
                  (fun x Hx => maximum_ge _ x Hx)) as H.
    lra.
Qed.

(** ** The sorted copy *)

Lemma insert_perm x l : Permutation (insert x l) (x :: l).
Proof.
  induction l as [|y l IH]; cbn [insert]; [reflexivity|].
  destruct (Qle_bool x y); [reflexivity|].
  rewrite IH. apply perm_swap.
Qed.

Lemma sort_perm l : Permutation (sort l) l.
Proof.
  induction l as [|x l IH]; cbn; [reflexivity|].
  unfold sort in IH. rewrite insert_perm. now constructor.
Qed.

Lemma sort_length l : List.length (sort l) = List.length l.
Proof. apply Permutation_length, sort_perm. Qed.

Lemma sort_In l x : In x (sort l) -> In x l.
Proof. apply Permutation_in, sort_perm. Qed.

Lemma insert_sorted x l :
  StronglySorted Qle l -> StronglySorted Qle (insert x l).
Proof.
  induction 1 as [|y l Hs IH Hall]; cbn [insert].
  - repeat constructor.
  - destruct (Qle_bool x y) eqn:E.
    + apply Qle_bool_iff in E. constructor; [now constructor|].
      constructor; [exact E|].
      eapply Forall_impl; [|exact Hall]. intros z Hz. now apply (Qle_trans _ y).
    + assert (Hyx : y <= x).
      { apply Qlt_le_weak, Qnot_le_lt. intros H. apply Qle_bool_iff in H. congruence. }
      constructor; [exact IH|].
      apply Forall_forall. intros z Hz.
      apply (Permutation_in _ (insert_perm x l)) in Hz.
      destruct Hz as [<-|Hz]; [exact Hyx|].
      rewrite Forall_forall in Hall. now apply Hall.
Qed.

Lemma sort_sorted l : StronglySorted Qle (sort l).
Proof.
  induction l as [|x l IH]; cbn; [constructor|]. now apply insert_sorted.
Qed.

Lemma sorted_ascending a : StronglySorted Qle a -> ascending a.
Proof.
  induction 1 as [|x a Hs IH Hall]; intros i j Hij Hj; cbn in Hj; [lia|].
  unfold at_index. destruct i as [|i], j as [|j]; cbn [nth]; try lia.
  - apply Qle_refl.
  - rewrite Forall_forall in Hall. apply Hall, nth_In. lia.
  - apply IH; lia.
Qed.

Lemma sort_ascending l : ascending (sort l).
Proof. apply sorted_ascending, sort_sorted. Qed.

Lemma at_index_In a i : (i < List.length a)%nat -> In (at_index a i) a.
Proof. intros H. now apply nth_In. Qed.

End OrderStatistics.

(** ** Linear interpolation in an ascending list *)

Section Interpolation.

Local Open Scope Q_scope.

Lemma floor_unique (x : Q) (z : Z) :
  inject_Z z <= x -> x < inject_Z (z + 1) -> Qfloor x = z.
Proof.
  intros Hlo Hhi.
  pose proof (Qfloor_le x) as H1. pose proof (Qlt_floor x) as H2.
  assert (Ha : (z < Qfloor x + 1)%Z).
  { rewrite Zlt_Qlt. eapply Qle_lt_trans; [exact Hlo|exact H2]. }
  assert (Hb : (Qfloor x < z + 1)%Z).
  { rewrite Zlt_Qlt. eapply Qle_lt_trans; [exact H1|exact Hhi]. }
  lia.
Qed.

Variable a : list Q.
Hypothesis a_ascending : ascending a.
Hypothesis a_nonempty : (0 < List.length a)%nat.

(** The last index, as a float. *)
Let top : Q := inject_Z (Z.of_nat (List.length a - 1)).

Lemma floor_nonneg h : 0 <= h -> (0 <= Qfloor h)%Z.
Proof.
  intros Hh. change 0%Z with (Qfloor 0). now apply Qfloor_resp_le.
Qed.

Lemma lower_bound h : 0 <= h -> h <= top -> (lower h <= List.length a - 1)%nat.
Proof.
  intros H0 Htop. unfold lower.
  pose proof (floor_nonneg h H0) as Hf.
  pose proof (Qfloor_resp_le _ _ Htop) as Hle.
  unfold top in Hle. rewrite Qfloor_Z in Hle. lia.
Qed.

Lemma lower_upper h :
  0 <= h -> h <= top ->
  (lower h <= upper a h)%nat /\ (upper a h < List.length a)%nat
  /\ (upper a h <= lower h + 1)%nat.
Proof.
  intros H0 Htop. pose proof (lower_bound h H0 Htop). unfold upper. lia.
Qed.

Lemma gamma_range h : 0 <= h - inject_Z (Qfloor h) /\ h - inject_Z (Qfloor h) < 1.
Proof.
  pose proof (Qfloor_le h) as H1. pose proof (Qlt_floor h) as H2.
  rewrite inject_Z_plus in H2. change (inject_Z 1) with 1 in H2. lra.
Qed.

Lemma interpolate_eq h :
  interpolate a h
  = at_index a (lower h)
    + (at_index a (upper a h) - at_index a (lower h)) * (h - inject_Z (Qfloor h)).
Proof. reflexivity. Qed.

(** The interpolated value lies between its two neighbours. *)
Lemma interpolate_between h :
  0 <= h -> h <= top ->
  at_index a (lower h) <= interpolate a h
  /\ interpolate a h <= at_index a (upper a h).
Proof.
  intros H0 Htop. rewrite interpolate_eq.
  destruct (lower_upper h H0 Htop) as (Hlu & Hu & _).
  pose proof (a_ascending _ _ Hlu Hu) as Hd.
  pose proof (gamma_range h) as [Hg0 Hg1].
  set (x := at_index a (lower h)) in *. set (y := at_index a (upper a h)) in *.
  set (g := h - inject_Z (Qfloor h)) in *.
  split; nra.
Qed.

(** Interpolation grows with the virtual index. *)
Lemma interpolate_mono h1 h2 :
  0 <= h1 -> h1 <= h2 -> h2 <= top -> interpolate a h1 <= interpolate a h2.
Proof.
  intros H0 H12 Htop.
  assert (H0' : 0 <= h2) by lra. assert (Htop' : h1 <= top) by lra.
  pose proof (Qfloor_resp_le _ _ H12) as Hfl.
  pose proof (floor_nonneg h1 H0) as Hf1.
  destruct (Z.eq_dec (Qfloor h1) (Qfloor h2)) as [Heq|Hne].
  - rewrite !interpolate_eq. unfold upper, lower. rewrite <- Heq.
    fold (lower h1). fold (upper a h1).
    destruct (lower_upper h1 H0 Htop') as (Hlu & Hu & _).
    pose proof (a_ascending _ _ Hlu Hu) as Hd.
    pose proof (gamma_range h1) as [Hg0 _].
    set (x := at_index a (lower h1)) in *. set (y := at_index a (upper a h1)) in *.
    set (f := inject_Z (Qfloor h1)) in *.
    nra.
  - destruct (interpolate_between h1 H0 Htop') as [_ Hup].
    destruct (interpolate_between h2 H0' Htop) as [Hlo _].
    destruct (lower_upper h1 H0 Htop') as (_ & _ & Hu1).
    pose proof (lower_bound h2 H0' Htop) as Hl2.
    assert (Hidx : (upper a h1 <= lower h2)%nat) by (unfold lower in *; lia).
    eapply Qle_trans; [exact Hup|]. eapply Qle_trans; [|exact Hlo].
    apply a_ascending; [exact Hidx|lia].
Qed.

(** The virtual index of a percentile between 0 and 100 is a position
    of the list. *)
Lemma virtual_index_range q :
  0 <= q -> q <= 100 ->
  0 <= virtual_index (List.length a) q /\ virtual_index (List.length a) q <= top.
Proof.
  intros Hq0 Hq1. unfold virtual_index. fold top.
  assert (Ht : 0 <= top).
  { unfold top. change 0 with (inject_Z 0). rewrite <- Zle_Qle. lia. }
  assert (Hr : q / 100 == q * (1 # 100)) by reflexivity.
  rewrite Hr. split; nra.
Qed.

Lemma virtual_index_mono q1 q2 :
  q1 <= q2 ->
  virtual_index (List.length a) q1 <= virtual_index (List.length a) q2.
Proof.
  intros Hq. unfold virtual_index. fold top.
  assert (Ht : 0 <= top).
  { unfold top. change 0 with (inject_Z 0). rewrite <- Zle_Qle. lia. }
  assert (Hr1 : q1 / 100 == q1 * (1 # 100)) by reflexivity.
  assert (Hr2 : q2 / 100 == q2 * (1 # 100)) by reflexivity.
  rewrite Hr1, Hr2. nra.
Qed.

(** Percentiles grow with the percentage, and lie between the first
    and the last element. *)
Lemma interpolate_percent_mono q1 q2 :
  0 <= q1 -> q1 <= q2 -> q2 <= 100 ->
  interpolate a (virtual_index (List.length a) q1)
  <= interpolate a (virtual_index (List.length a) q2).
Proof.
  intros H0 H12 H100.
  apply interpolate_mono.
  - apply virtual_index_range; lra.
  - now apply virtual_index_mono.
  - apply virtual_index_range; lra.
Qed.

End Interpolation.

(** ** The median as the 50th percentile *)

Section Median.

Local Open Scope Q_scope.

Lemma half_even m : (2 * m / 2 = m)%nat.
Proof. symmetry. apply (Nat.div_unique _ _ m 0%nat); lia. Qed.

Lemma half_odd m : ((2 * m + 1) / 2 = m)%nat.
Proof. symmetry. apply (Nat.div_unique _ _ m 1%nat); lia. Qed.

Lemma inject_Z_pred_double (m : nat) :
  (1 <= m)%nat ->
  inject_Z (Z.of_nat (2 * m - 1)) == 2 * inject_Z (Z.of_nat m) - 1.
Proof.
  intros Hm.
  replace (Z.of_nat (2 * m - 1)) with (2 * Z.of_nat m + - (1))%Z by lia.
  rewrite inject_Z_plus, inject_Z_mult, inject_Z_opp. reflexivity.
Qed.

Lemma inject_Z_double (m : nat) :
  inject_Z (Z.of_nat (2 * m + 1 - 1)) == 2 * inject_Z (Z.of_nat m).
Proof.
  replace (Z.of_nat (2 * m + 1 - 1)) with (2 * Z.of_nat m)%Z by lia.
  rewrite inject_Z_mult. reflexivity.
Qed.

Lemma inject_Z_pred (m : nat) :
  (1 <= m)%nat -> inject_Z (Z.of_nat m - 1) == inject_Z (Z.of_nat m) - 1.
Proof.
  intros _. unfold Z.sub. rewrite inject_Z_plus, inject_Z_opp. reflexivity.
Qed.

Variable a : list Q.

(** Even length [2 m]: the virtual index is [m - 1/2]. *)
Lemma median_even m :
  List.length a = (2 * m)%nat -> (1 <= m)%nat ->
  interpolate a (virtual_index (List.length a) 50)
  == (at_index a (m - 1) + at_index a m) / 2.
Proof.
  intros Hn Hm.
  set (h := virtual_index (List.length a) 50).
  assert (Hh : h == inject_Z (Z.of_nat m) - (1 # 2)).
  { unfold h, virtual_index. rewrite Hn, (inject_Z_pred_double m Hm).
    assert (Hr : 50 / 100 == 1 # 2) by reflexivity. rewrite Hr. lra. }
  assert (Hfl : Qfloor h = (Z.of_nat m - 1)%Z).
  { apply floor_unique.
    - rewrite (inject_Z_pred m Hm). lra.
    - replace (Z.of_nat m - 1 + 1)%Z with (Z.of_nat m) by lia. lra. }
  unfold interpolate. fold h. rewrite Hfl.
  replace (Z.to_nat (Z.of_nat m - 1)) with (m - 1)%nat by lia.
  replace (Nat.min (m - 1 + 1) (List.length a - 1)) with m by lia.
  rewrite (inject_Z_pred m Hm), Hh.
  set (x := at_index a (m - 1)). set (y := at_index a m).
  set (M := inject_Z (Z.of_nat m)).
  field.
Qed.

(** Odd length [2 m + 1]: the virtual index is [m]. *)
Lemma median_odd m :
  List.length a = (2 * m + 1)%nat ->
  interpolate a (virtual_index (List.length a) 50) == at_index a m.
Proof.
  intros Hn.
  set (h := virtual_index (List.length a) 50).
  assert (Hh : h == inject_Z (Z.of_nat m)).
  { unfold h, virtual_index. rewrite Hn, (inject_Z_double m).
    assert (Hr : 50 / 100 == 1 # 2) by reflexivity. rewrite Hr. lra. }
  assert (Hfl : Qfloor h = Z.of_nat m).
  { apply floor_unique; [lra|]. rewrite inject_Z_plus.
    change (inject_Z 1) with 1. lra. }
  unfold interpolate. fold h. rewrite Hfl, Nat2Z.id, Hh.
  set (x := at_index a m). set (y := at_index a (Nat.min (m + 1) (List.length a - 1))).
  set (M := inject_Z (Z.of_nat m)).
  ring.
Qed.

Lemma median_interpolate :
  (0 < List.length a)%nat ->
  (if Nat.even (List.length a)
   then (at_index a (List.length a / 2 - 1) + at_index a (List.length a / 2)) / 2
   else at_index a (List.length a / 2))
  == interpolate a (virtual_index (List.length a) 50).
Proof.
  intros Hpos. destruct (Nat.even (List.length a)) eqn:E.
  - apply Nat.even_spec in E. destruct E as [m Hm].
    assert (1 <= m)%nat by lia.
    rewrite (median_even m Hm) by assumption.
    rewrite Hm, half_even. reflexivity.
  - assert (Ho : Nat.odd (List.length a) = true).
    { unfold Nat.odd. now rewrite E. }
    apply Nat.odd_spec in Ho. destruct Ho as [m Hm].
    rewrite (median_odd m Hm). rewrite Hm, half_odd. reflexivity.
Qed.

End Median.

Lemma median_percentile l : l <> [] -> median l == percentile l 50.
Proof.
  intros Hne. unfold median, percentile. apply median_interpolate.
  rewrite sort_length. destruct l; [congruence|]. cbn. lia.
Qed.

Lemma latency_order (l : list Q) :
  l <> [] ->
  minimum l <= median l /\ median l <= percentile l 95
  /\ percentile l 95 <= percentile l 99 /\ percentile l 99 <= maximum l
  /\ minimum l <= mean l /\ mean l <= maximum l.
Proof.
  intros Hne.
  assert (Hlen : (0 < List.length (sort l))%nat).
  { rewrite sort_length. destruct l; [congruence|]. cbn. lia. }
  pose proof (sort_ascending l) as Hasc.
  pose proof (median_percentile l Hne) as Hmed.
  destruct (mean_between l Hne) as [Hm1 Hm2].
  assert (H50 : percentile l 50 <= percentile l 95).
  { unfold percentile. apply interpolate_percent_mono; (assumption || lra). }
  assert (H95 : percentile l 95 <= percentile l 99).
  { unfold percentile. apply interpolate_percent_mono; (assumption || lra). }
  assert (Hlow : minimum l <= percentile l 50).
  { unfold percentile.
    destruct (virtual_index_range (sort l) Hlen 50) as [Ha Hb]; try lra.
    destruct (interpolate_between (sort l) Hasc Hlen _ Ha Hb) as [Hlo _].
    eapply Qle_trans; [|exact Hlo].
    apply minimum_le, sort_In, at_index_In.
    pose proof (lower_bound (sort l) Hlen _ Ha Hb). lia. }
  assert (Hhigh : percentile l 99 <= maximum l).
  { unfold percentile.
    destruct (virtual_index_range (sort l) Hlen 99) as [Ha Hb]; try lra.
    destruct (interpolate_between (sort l) Hasc Hlen _ Ha Hb) as [_ Hup].
    eapply Qle_trans; [exact Hup|].
    apply maximum_ge, sort_In, at_index_In.
    destruct (lower_upper (sort l) Hlen _ Ha Hb) as (_ & Hu & _). exact Hu. }
  repeat split; try assumption; rewrite Hmed; assumption.
Qed.

(** C10, as the code has it: with a successful outcome in the batch,
    the record satisfies min_latency <= median_latency <= p95_latency
    <= p99_latency <= max_latency, and the mean of the successful
    latencies lies between min_latency and max_latency.  (The
    avg_latency the code reports is that mean as binary64 computes it,
    which rounding can push out of the interval, see the section on
    rounding in the mean.) *)
Theorem latency_statistics_ordered (results : list Outcome) (t : Q) (n : Z) :
  (exists o, In o results /\ success o = true) ->
  exists st : Stats,
    analyze_results results t n = Return (Some st)
    /\ min_latency st <= median_latency st
    /\ median_latency st <= p95_latency st
    /\ p95_latency st <= p99_latency st
    /\ p99_latency st <= max_latency st
    /\ min_latency st <= mean (map latency (successful_of results))
    /\ mean (map latency (successful_of results)) <= max_latency st.
Proof.
  intros H. apply successful_of_cons_iff in H.
  exists (stats_of results t n). split; [now apply analyze_results_some|].
  unfold stats_of.
  cbn [min_latency median_latency p95_latency p99_latency max_latency].
  apply latency_order.
  destruct (successful_of results); [congruence|discriminate].
Qed.

(* ================================================================== *)
(** * Configurations without work *)

Local Open Scope Z_scope.

Lemma build_tasks_no_work n m : n <= 0 \/ m <= 0 -> build_tasks n m = [].
Proof.
  intros H. rewrite build_tasks_spec.
  replace (Z.to_nat n * Z.to_nat m)%nat with 0%nat by lia. reflexivity.
Qed.

Lemma run_no_work b n m :
  n <= 0 \/ m <= 0 ->
  run_concurrent_benchmark b n m = ([], (gather_end b - gather_start b)%Q).
Proof.
  intros H. unfold run_concurrent_benchmark. now rewrite build_tasks_no_work.
Qed.

Lemma contribution_no_work w rps k level :
  level <= 0 \/ rps <= 0 -> contribution w rps (k, level) = [].
Proof.
  intros H. unfold contribution, batch_stats. cbn [fst snd].
  now rewrite run_no_work.
Qed.

Lemma sweep_no_work_from w rps k levels :
  Forall (fun n => n <= 0) levels \/ rps <= 0 ->
  flat_map (contribution w rps) (numbered k levels) = [].
Proof.
  intros H. revert k. induction levels as [|level ls IH]; intros k; [reflexivity|].
  unfold numbered. cbn [List.length seq combine flat_map].
  rewrite contribution_no_work.
  - cbn [app]. apply IH. destruct H as [H|H]; [left|now right].
    now inversion H.
  - destruct H as [H|H]; [left|now right]. now inversion H.
Qed.

(** C7, as the code has it: nothing validates the configuration and
    no sweep is ever rejected.  An empty list of levels gives an empty
    run; a batch whose concurrency level or number of requests per
    session is not positive creates no task and returns no outcome,
    the aggregation of no outcome returns None, and a sweep made of
    such batches gives an empty run. *)
Theorem no_configuration_is_rejected (w : World) (b : Batch) :
  (forall levels rps, ~ raised (sweep w levels rps))
  /\ (forall rps, sweep w [] rps = Return [])
  /\ (forall n m, n <= 0 \/ m <= 0 ->
        run_concurrent_benchmark b n m = ([], (gather_end b - gather_start b)%Q))
  /\ (forall t n, analyze_results [] t n = Return None)
  /\ (forall levels rps,
        Forall (fun n => n <= 0) levels \/ rps <= 0 ->
        sweep w levels rps = Return []).
Proof.
  split; [|split; [|split; [|split]]].
  - intros levels rps. apply sweep_never_raises.
  - reflexivity.
  - intros n m. apply run_no_work.
  - reflexivity.
  - intros levels rps H. rewrite sweep_spec. now rewrite sweep_no_work_from.
Qed.

(* ================================================================== *)
(** * The claims on the sample runs *)

Local Open Scope Q_scope.

Lemma batch_ids_and_prompts_witness :
  (0 < 2)%Z /\ (0 < 5)%Z
  /\ py_len (build_tasks 2 5) = 10%Z
  /\ map task_request_id (build_tasks 2 5) = py_range 10
  /\ map request_id (fst (run_concurrent_benchmark steady_batch 2 5)) = py_range 10.
Proof.
  pose proof (batch_ids_and_prompts steady_batch 2 5 eq_refl eq_refl) as H.
  cbv zeta in H.
  destruct H as (Hlen & Hids & _ & _ & _ & _ & _ & _ & Hres).
  repeat split; assumption.
Defined.

Lemma tokens_per_second_spec_witness :
  0 < latency (run_task (batch_session steady_batch) (task_of 3))
  /\ tokens_per_second (run_task (batch_session steady_batch) (task_of 3))
     == inject_Z (completion_tokens (run_task (batch_session steady_batch) (task_of 3)))
        / latency (run_task (batch_session steady_batch) (task_of 3))
  /\ tokens_per_second (run_task (batch_session steady_batch) (task_of 3)) == 5 # 2
  /\ success (run_task (batch_session dead_batch) (task_of 3)) = false
  /\ tokens_per_second (run_task (batch_session dead_batch) (task_of 3)) = 0.
Proof.
  pose proof (tokens_per_second_spec (batch_session steady_batch)
                (prompt_for 3) 100 (7 # 10) 3) as Hup.
  pose proof (tokens_per_second_spec (batch_session dead_batch)
                (prompt_for 3) 100 (7 # 10) 3) as Hdown.
  cbv zeta in Hup, Hdown.
  destruct Hup as (Hrate & _). destruct Hdown as (_ & _ & _ & _ & _ & Hzero).
  split; [reflexivity|]. split; [exact (Hrate eq_refl)|].
  split; [reflexivity|]. split; [reflexivity|exact (Hzero eq_refl)].
Defined.

(** C2, as stated, fails: the code passes the server's count on
    without a check, so a body that reports -5 completion tokens,
    delivered after 2 seconds, gives a successful outcome with a rate
    of -2.5. *)
Lemma negative_count_negative_rate :
  success (send_completion_request miscounting "Hi" 100 (7 # 10) 0) = true
  /\ completion_tokens (send_completion_request miscounting "Hi" 100 (7 # 10) 0)
     = (-5)%Z
  /\ latency (send_completion_request miscounting "Hi" 100 (7 # 10) 0) == 2
  /\ tokens_per_second (send_completion_request miscounting "Hi" 100 (7 # 10) 0)
     == - (5 # 2)
  /\ tokens_per_second (send_completion_request miscounting "Hi" 100 (7 # 10) 0) < 0.
Proof. repeat split. Qed.

Lemma steady_batch_succeeds :
  Forall (fun o => success o = true) (fst (run_concurrent_benchmark steady_batch 1 5)).
Proof. vm_compute. repeat constructor. Qed.

Lemma steady_batch_has_success :
  exists o, In o (fst (run_concurrent_benchmark steady_batch 1 5)) /\ success o = true.
Proof.
  eexists. split; [left; reflexivity|reflexivity].
Qed.

Lemma scenario_five_latencies_witness :
  map latency (fst (run_concurrent_benchmark steady_batch 1 5)) = [1; 2; 3; 4; 5]
  /\ exists st : Stats,
       analyze_results (fst (run_concurrent_benchmark steady_batch 1 5)) 5 1
       = Return (Some st)
       /\ avg_latency st == 3
       /\ median_latency st == 3
       /\ total_tokens_generated st = 50%Z
       /\ overall_throughput st == 10.
Proof.
  split; [reflexivity|].
  exact (scenario_five_latencies
           (fst (run_concurrent_benchmark steady_batch 1 5)) 1
           steady_batch_succeeds eq_refl eq_refl).
Defined.

Lemma overall_throughput_guarded_witness :
  exists st : Stats,
    analyze_results (fst (run_concurrent_benchmark steady_batch 1 5)) 5 1
    = Return (Some st)
    /\ total_tokens_generated st
       = py_sum (map completion_tokens
                   (successful_of (fst (run_concurrent_benchmark steady_batch 1 5))))
    /\ (0 < 5 -> overall_throughput st == inject_Z (total_tokens_generated st) / 5)
    /\ (~ 0 < 5 -> overall_throughput st = 0)
    /\ ~ raised (overall_throughput_expr (total_tokens_generated st) 5)
    /\ ~ raised (analyze_results (fst (run_concurrent_benchmark steady_batch 1 5)) 5 1).
Proof.
  exact (overall_throughput_guarded
           (fst (run_concurrent_benchmark steady_batch 1 5)) 5 1
           steady_batch_has_success).
Defined.

Lemma latency_statistics_ordered_witness :
  exists st : Stats,
    analyze_results (fst (run_concurrent_benchmark steady_batch 1 5)) 5 1
    = Return (Some st)
    /\ min_latency st <= median_latency st
    /\ median_latency st <= p95_latency st
    /\ p95_latency st <= p99_latency st
    /\ p99_latency st <= max_latency st
    /\ min_latency st
       <= mean (map latency
                 (successful_of (fst (run_concurrent_benchmark steady_batch 1 5))))
    /\ mean (map latency
               (successful_of (fst (run_concurrent_benchmark steady_batch 1 5))))
       <= max_latency st.
Proof.
  exact (latency_statistics_ordered
           (fst (run_concurrent_benchmark steady_batch 1 5)) 5 1
           steady_batch_has_success).
Defined.

Lemma dead_batch_fails o :
  In o (fst (run_concurrent_benchmark (recovering_world 0%nat) 1 5)) -> success o = false.
Proof.
  intros H. vm_compute in H.
  repeat (destruct H as [<-|H]; [reflexivity|]). destruct H.
Qed.

Lemma second_batch_succeeds o :
  In o (fst (run_concurrent_benchmark (recovering_world 1%nat) 2 5)) -> success o = true.
Proof.
  intros H. vm_compute in H.
  repeat (destruct H as [<-|H]; [reflexivity|]). destruct H.
Qed.

Lemma analyze_results_empty_or_full_witness :
  analyze_results (fst (run_concurrent_benchmark dead_batch 1 5)) (1 # 100) 1
  = Return None
  /\ exists st : Stats,
       analyze_results (fst (run_concurrent_benchmark steady_batch 1 5)) 5 1
       = Return (Some st)
       /\ successful_requests st = 5%Z.
Proof.
  split.
  - exact (proj1 (analyze_results_empty_or_full
                    (fst (run_concurrent_benchmark dead_batch 1 5)) (1 # 100) 1)
             dead_batch_fails).
  - destruct (proj1 (proj2 (analyze_results_empty_or_full
                              (fst (run_concurrent_benchmark steady_batch 1 5)) 5 1))
                steady_batch_has_success) as (st & Hst & _).
    exists st. split; [exact Hst|].
    vm_compute in Hst. injection Hst as <-. reflexivity.
Defined.

Lemma no_configuration_is_rejected_witness :
  run_concurrent_benchmark steady_batch 0 5 = ([], 5)
  /\ run_concurrent_benchmark steady_batch 16 0 = ([], 5)
  /\ sweep recovering_world [0; -1]%Z 5 = Return []
  /\ sweep recovering_world concurrency_levels 0 = Return [].
Proof.
  destruct (no_configuration_is_rejected recovering_world steady_batch)
    as (_ & _ & Hrun & _ & Hsweep).
  split; [exact (Hrun 0%Z 5%Z (or_introl (Z.le_refl 0)))|].
  split; [exact (Hrun 16%Z 0%Z (or_intror (Z.le_refl 0)))|].
  split.
  - apply Hsweep. left. repeat constructor; discriminate.
  - apply Hsweep. right. apply Z.le_refl.
Defined.

Lemma sweep_omits_empty_levels_witness :
  (0 < 5)%Z
  /\ exists st : Stats,
       sweep recovering_world [1; 2]%Z 5 = Return [st] /\ num_concurrent st = 2%Z.
Proof.
  split; [reflexivity|].
  exact (proj2 (proj2 (proj2 (sweep_omits_empty_levels recovering_world 5)))
           eq_refl dead_batch_fails second_batch_succeeds).
Defined.

(** C7, as stated, fails: a sweep over no level, over a level 0 or
    with 0 requests per session is not rejected, it returns an empty
    run; and a batch with level 0 or with 0 requests per session
    returns an empty list of outcomes. *)
Lemma malformed_configuration_runs_silently :
  malformed [] 5
  /\ sweep recovering_world [] 5 = Return []
  /\ malformed [0%Z] 5
  /\ sweep recovering_world [0%Z] 5 = Return []
  /\ run_concurrent_benchmark steady_batch 0 5 = ([], 5)
  /\ malformed [1%Z; 2%Z] 0
  /\ sweep recovering_world [1%Z; 2%Z] 0 = Return []
  /\ run_concurrent_benchmark steady_batch 1 0 = ([], 5)
  /\ ~ raised (sweep recovering_world [] 5).
Proof.
  split; [left; reflexivity|]. split; [reflexivity|].
  split; [right; left; constructor; discriminate|]. split; [reflexivity|].
  split; [reflexivity|].
  split; [right; right; discriminate|]. split; [reflexivity|].
  split; [reflexivity|]. apply sweep_never_raises.
Qed.

(* ================================================================== *)
(** * Rounding in the mean *)

Local Open Scope float_scope.

(** C10, as stated, fails in the arithmetic the code runs in: on three
    successful outcomes with a latency of 0.1 s each, min_latency and
    max_latency are 0.1 and avg_latency is 0.10000000000000002, above
    max_latency. *)
Lemma mean_exceeds_max_in_binary64 :
  f64_sum (map latency64 tenths) = 0x1.3333333333334p-2
  /\ latency_summary_f64 tenths
     = Some (0x1.999999999999bp-4, 0x1.999999999999ap-4, 0x1.999999999999ap-4)
  /\ PrimFloat.ltb 0x1.999999999999ap-4 0x1.999999999999bp-4 = true
  /\ PrimFloat.leb (np_mean_f64 (map latency64 tenths))
                   (np_max_f64 (map latency64 tenths)) = false.
Proof. vm_compute. repeat split; reflexivity. Qed.

(** On the latencies 1, 2, 3, 4, 5 nothing is rounded: the binary64
    mean is the exact one. *)
Lemma mean_exact_on_scenario :
  np_mean_f64 [1; 2; 3; 4; 5] = 3
  /\ np_min_f64 [1; 2; 3; 4; 5] = 1 /\ np_max_f64 [1; 2; 3; 4; 5] = 5.
Proof. vm_compute. repeat split; reflexivity. Qed.

(* ================================================================== *)
(** * The fields of an outcome *)

Local Open Scope Z_scope.

Lemma str_prefix_length k s :
  String.length (str_prefix k s) = Nat.min k (String.length s).
Proof.
  unfold str_prefix. revert s; induction k as [|k IH]; intros s.
  - destruct s; reflexivity.
  - destruct s as [|c s]; [reflexivity|]. cbn [substring String.length].
    now rewrite IH.
Qed.

Lemma str_prefix_short k s :
  (String.length s <= k)%nat -> str_prefix k s = s.
Proof.
  unfold str_prefix. revert s; induction k as [|k IH]; intros s Hs.
  - destruct s; [reflexivity|cbn in Hs; lia].
  - destruct s as [|c s]; [reflexivity|]. cbn [substring]. f_equal.
    apply IH. cbn in Hs. lia.
Qed.

Lemma str_prefix_is_prefix k s : prefix (str_prefix k s) s = true.
Proof.
  unfold str_prefix. revert s; induction k as [|k IH]; intros s.
  - destruct s; reflexivity.
  - destruct s as [|c s]; [reflexivity|]. cbn [substring prefix].
    destruct (Ascii.ascii_dec c c); [apply IH|congruence].
Qed.

Lemma append_length (s1 s2 : string) :
  String.length (s1 ++ s2)%string = (String.length s1 + String.length s2)%nat.
Proof. induction s1 as [|c s1 IH]; cbn; [reflexivity|now rewrite IH]. Qed.

Lemma send_prompt s p mt te id :
  prompt (send_completion_request s p mt te id) = (str_prefix 50 p ++ "...")%string.
Proof.
  unfold send_completion_request, try_request.
  destruct (reply (s id)); cbn [bind]; [|reflexivity|reflexivity].
  destruct (tokens_per_second_expr _ _); cbn [bind]; [|reflexivity].
  destruct (first_choice_text _); reflexivity.
Qed.

(** X1: the prompt field of an outcome is the first 50 characters of
    the prompt followed by three dots, whether the request succeeded
    or not: it has min(len(prompt), 50) + 3 characters, 53 at most,
    and the dots are there even when nothing was cut. *)
Theorem outcome_prompt_excerpt
    (s : Session) (p : string) (mt : Z) (te : Q) (id : Z) :
  let o := send_completion_request s p mt te id in
  exists head : string,
    prompt o = (head ++ "...")%string
    /\ prefix head p = true
    /\ String.length head = Nat.min 50 (String.length p)
    /\ String.length (prompt o) = (Nat.min 50 (String.length p) + 3)%nat
    /\ (String.length (prompt o) <= 53)%nat
    /\ ((String.length p <= 50)%nat -> prompt o = (p ++ "...")%string).
Proof.
  intros o. exists (str_prefix 50 p). subst o. rewrite send_prompt.
  split; [reflexivity|]. split; [apply str_prefix_is_prefix|].
  split; [apply str_prefix_length|].
  rewrite append_length, str_prefix_length. cbn [String.length].
  split; [reflexivity|]. split; [lia|].
  intros Hp. now rewrite str_prefix_short.
Qed.

Lemma first_choice_text_length b text :
  first_choice_text b = Return text -> (String.length text <= 100)%nat.
Proof.
  unfold first_choice_text. destruct (body_choices b) as [[|c cs]|]; intros H;
    try discriminate; injection H as <-; rewrite str_prefix_length; lia.
Qed.

Lemma first_choice_text_raises b e :
  first_choice_text b = Raise e <-> body_choices b = Some [] /\ e = IndexError.
Proof.
  unfold first_choice_text. destruct (body_choices b) as [[|c cs]|]; split;
    try discriminate; try (intros [H _]; discriminate).
  - intros H. injection H as <-. now split.
  - intros [_ ->]. reflexivity.
Qed.

(** X2: an outcome carries either a response or an error, never both:
    a successful one has a response of at most 100 characters and no
    error; a failed one has an error message, no response, and zero
    completion and total tokens, whatever the server had reported. *)
Theorem outcome_response_xor_error
    (s : Session) (p : string) (mt : Z) (te : Q) (id : Z) :
  let o := send_completion_request s p mt te id in
  (success o = true ->
     exists text, response o = Some text
                  /\ (String.length text <= 100)%nat /\ error o = None)
  /\ (success o = false ->
        exists msg, error o = Some msg /\ response o = None
                    /\ completion_tokens o = 0 /\ total_tokens o = 0
                    /\ tokens_per_second o = 0%Q).
Proof.
  intros o.
  destruct (send_completion_request_cases s p mt te id)
    as [(b & text & Hr & Ht & Hs & Hl & Hc & Htt & Htps & Hresp & Herr)
       |(e & Hraise & Hne & Hs & Hl & Hc & Htt & Htps & Hresp & Herr)];
    fold o in Hs, Hl, Hc, Htt, Htps, Hresp, Herr.
  - split; [|rewrite Hs; discriminate].
    intros _. exists text. split; [exact Hresp|]. split; [|exact Herr].
    now apply (first_choice_text_length b).
  - split; [rewrite Hs; discriminate|].
    intros _. exists (exn_str e). repeat split; assumption.
Qed.

Lemma try_request_responded x p id b :
  reply x = Responded b ->
  try_request x p id
  = (text <- first_choice_text b ;;
     Return {| request_id := id;
               prompt := (str_prefix 50 p ++ "...")%string;
               latency := (t_end x - t_start x)%Q;
               completion_tokens := usage_field b usage_completion_tokens;
               total_tokens := usage_field b usage_total_tokens;
               tokens_per_second :=
                 (if Qltb 0 (t_end x - t_start x)
                  then inject_Z (usage_field b usage_completion_tokens)
                       / (t_end x - t_start x)
                  else 0)%Q;
               success := true;
               response := Some text;
               error := None |}).
Proof.
  intros Hr. unfold try_request. rewrite Hr. cbn [bind].
  rewrite tokens_per_second_expr_value. reflexivity.
Qed.

(** X3: the outcome follows what the transport delivered.  A
    transport failure is reported with its own message and the time up
    to the failure.  A body the code cannot read (null or a value of
    another kind where "usage", "choices", the first choice or its
    "text" is read) raises inside the try block and is reported as a
    failure with the text of that exception and the time read in the
    handler; so is an empty "choices" list, as "list index out of
    range".  A body of the expected shape whose "choices" is missing or
    not empty gives a successful outcome, whose response is the first
    100 characters of the first choice's text (empty when "choices" or
    "text" is missing). *)
Theorem outcome_by_reply
    (s : Session) (p : string) (mt : Z) (te : Q) (id : Z) :
  let x := s id in
  let o := send_completion_request s p mt te id in
  (forall msg, reply x = Failed msg ->
     success o = false /\ error o = Some msg
     /\ latency o = (t_end x - t_start x)%Q)
  /\ (forall msg, reply x = Unusable msg ->
        success o = false /\ error o = Some msg
        /\ latency o = (t_handler x - t_start x)%Q)
  /\ (forall b, reply x = Responded b -> body_choices b = Some [] ->
        success o = false /\ error o = Some "list index out of range"%string
        /\ latency o = (t_handler x - t_start x)%Q)
  /\ (forall b, reply x = Responded b -> body_choices b <> Some [] ->
        success o = true /\ error o = None
        /\ latency o = (t_end x - t_start x)%Q
        /\ exists text, first_choice_text b = Return text
                        /\ response o = Some text)
  /\ (forall b, reply x = Responded b -> body_choices b = None ->
        response o = Some ""%string)
  /\ (forall b c cs, reply x = Responded b -> body_choices b = Some (c :: cs) ->
        response o = Some (str_prefix 100 (match c with
                                           | Some text => text
                                           | None => ""%string
                                           end))).
Proof.
  intros x o. subst x o. unfold send_completion_request, handler_time.
  destruct (reply (s id)) as [b|msg|msg] eqn:Hr.
  - rewrite (try_request_responded _ p id b Hr).
    destruct (first_choice_text b) as [text|e] eqn:Ht; cbn [bind].
    + assert (Hne : body_choices b <> Some []).
      { intros Hc. unfold first_choice_text in Ht. rewrite Hc in Ht. discriminate. }
      split; [|split; [|split; [|split; [|split]]]].
      * intros msg Hm. discriminate.
      * intros msg Hm. discriminate.
      * intros b' Hb' Hc. injection Hb' as <-. contradiction.
      * intros b' Hb' _. injection Hb' as <-. cbn. repeat split.
        exists text. now split.
      * intros b' Hb' Hc. injection Hb' as <-. cbn.
        unfold first_choice_text in Ht. rewrite Hc in Ht. injection Ht as <-.
        reflexivity.
      * intros b' c cs Hb' Hc. injection Hb' as <-. cbn.
        unfold first_choice_text in Ht. rewrite Hc in Ht. injection Ht as <-.
        reflexivity.
    + apply first_choice_text_raises in Ht. destruct Ht as [Hc ->].
      split; [|split; [|split; [|split; [|split]]]].
      * intros msg Hm. discriminate.
      * intros msg Hm. discriminate.
      * intros b' _ _. cbn. repeat split.
      * intros b' Hb' Hne. injection Hb' as <-. contradiction.
      * intros b' Hb' Hc'. injection Hb' as <-. congruence.
      * intros b' c cs Hb' Hc'. injection Hb' as <-. congruence.
  - unfold try_request. rewrite Hr. cbn [bind].
    split; [|split; [|split; [|split; [|split]]]].
    + intros msg' Hm. discriminate.
    + intros msg' Hm. injection Hm as <-. cbn. repeat split.
    + intros b Hb. discriminate.
    + intros b Hb. discriminate.
    + intros b Hb. discriminate.
    + intros b c cs Hb. discriminate.
  - unfold try_request. rewrite Hr. cbn [bind].
    split; [|split; [|split; [|split; [|split]]]].
    + intros msg' Hm. injection Hm as <-. cbn. repeat split.
    + intros msg' Hm. discriminate.
    + intros b Hb. discriminate.
    + intros b Hb. discriminate.
    + intros b Hb. discriminate.
    + intros b c cs Hb. discriminate.
Qed.

Lemma outcome_by_reply_witness :
  (success (send_completion_request mixed "Hi" 100 (7 # 10) 0) = false
   /\ error (send_completion_request mixed "Hi" 100 (7 # 10) 0)
      = Some "Cannot connect to host"%string
   /\ latency (send_completion_request mixed "Hi" 100 (7 # 10) 0)
      = (t_end refused - t_start refused)%Q)
  /\ (success (send_completion_request mixed "Hi" 100 (7 # 10) 1) = false
      /\ error (send_completion_request mixed "Hi" 100 (7 # 10) 1)
         = Some "'NoneType' object has no attribute 'get'"%string
      /\ latency (send_completion_request mixed "Hi" 100 (7 # 10) 1)
         = (t_handler null_usage - t_start null_usage)%Q)
  /\ (success (send_completion_request mixed "Hi" 100 (7 # 10) 2) = false
      /\ error (send_completion_request mixed "Hi" 100 (7 # 10) 2)
         = Some "list index out of range"%string
      /\ latency (send_completion_request mixed "Hi" 100 (7 # 10) 2)
         = (t_handler no_choice - t_start no_choice)%Q)
  /\ (success (send_completion_request mixed "Hi" 100 (7 # 10) 3) = true
      /\ response (send_completion_request mixed "Hi" 100 (7 # 10) 3)
         = Some "Paris."%string).
Proof.
  pose proof (outcome_by_reply mixed "Hi" 100 (7 # 10) 0) as H0.
  pose proof (outcome_by_reply mixed "Hi" 100 (7 # 10) 1) as H1.
  pose proof (outcome_by_reply mixed "Hi" 100 (7 # 10) 2) as H2.
  pose proof (outcome_by_reply mixed "Hi" 100 (7 # 10) 3) as H3.
  cbv zeta in H0, H1, H2, H3.
  destruct H0 as (H0 & _).
  destruct H1 as (_ & H1 & _).
  destruct H2 as (_ & _ & H2 & _).
  destruct H3 as (_ & _ & _ & H3 & _ & H3').
  split; [exact (H0 _ eq_refl)|].
  split; [exact (H1 _ eq_refl)|].
  split; [exact (H2 _ eq_refl eq_refl)|].
  split; [exact (proj1 (H3 _ eq_refl ltac:(discriminate)))|].
  exact (H3' _ _ _ eq_refl eq_refl).
Defined.

(** X4: a delivered body without "usage", or whose usage lacks
    "completion_tokens", gives a successful outcome with 0 completion
    tokens and a rate of 0; "total_tokens" defaults to 0 in the same
    way, independently. *)
Theorem outcome_usage_defaults
    (s : Session) (p : string) (mt : Z) (te : Q) (id : Z) (b : Body) :
  reply (s id) = Responded b ->
  body_choices b <> Some [] ->
  let o := send_completion_request s p mt te id in
  success o = true
  /\ ((forall u, body_usage b = Some u -> usage_completion_tokens u = None) ->
        completion_tokens o = 0 /\ (tokens_per_second o == 0)%Q)
  /\ ((forall u, body_usage b = Some u -> usage_total_tokens u = None) ->
        total_tokens o = 0)
  /\ (forall u n, body_usage b = Some u -> usage_completion_tokens u = Some n ->
        completion_tokens o = n)
  /\ (forall u n, body_usage b = Some u -> usage_total_tokens u = Some n ->
        total_tokens o = n).
Proof.
  intros Hr Hne o. subst o. unfold send_completion_request.
  rewrite (try_request_responded _ p id b Hr).
  destruct (first_choice_text b) as [text|e] eqn:Ht; cbn [bind].
  2:{ apply first_choice_text_raises in Ht. destruct Ht; contradiction. }
  cbn. unfold usage_field.
  split; [reflexivity|]. split; [|split; [|split]].
  - intros Hu. destruct (body_usage b) as [u|].
    + rewrite (Hu u eq_refl). split; [reflexivity|].
      destruct (Qltb 0 (t_end (s id) - t_start (s id))); reflexivity.
    + split; [reflexivity|].
      destruct (Qltb 0 (t_end (s id) - t_start (s id))); reflexivity.
  - intros Hu. destruct (body_usage b) as [u|]; [|reflexivity].
    now rewrite (Hu u eq_refl).
  - intros u n Hu Hn. rewrite Hu, Hn. reflexivity.
  - intros u n Hu Hn. rewrite Hu, Hn. reflexivity.
Qed.

(* ================================================================== *)
(** * The prompts of a batch *)

Lemma TEST_PROMPTS_NoDup : NoDup TEST_PROMPTS.
Proof.
  unfold TEST_PROMPTS.
  repeat (constructor; [cbn [In]; intros H;
                        repeat (destruct H as [H|H]; [discriminate H|]);
                        exact H|]).
  constructor.
Qed.

Lemma TEST_PROMPTS_short :
  Forall (fun p => (String.length p <= 50)%nat) TEST_PROMPTS.
Proof. repeat constructor; cbn; lia. Qed.

Lemma mod_pool_range id : (Z.to_nat (id mod pool_size) < List.length TEST_PROMPTS)%nat.
Proof.
  assert (0 <= id mod pool_size < pool_size) by (apply Z.mod_pos_bound; reflexivity).
  unfold pool_size in *. lia.
Qed.

Lemma prompt_for_In id : In (prompt_for id) TEST_PROMPTS.
Proof. unfold prompt_for. apply nth_In, mod_pool_range. Qed.

(** X5: the prompts go round the pool: two request ids get the same
    prompt exactly when they are congruent modulo 10, so the prompt of
    id + 10 is that of id and ten consecutive ids get the ten prompts
    of the pool. *)
Theorem prompts_round_robin (i j : Z) :
  (prompt_for i = prompt_for j <-> i mod 10 = j mod 10)
  /\ prompt_for (i + 10) = prompt_for i
  /\ (forall p, In p TEST_PROMPTS ->
        exists k, i <= k < i + 10 /\ prompt_for k = p).
Proof.
  split; [|split].
  - split.
    + unfold prompt_for. intros H.
      pose proof (proj1 (NoDup_nth TEST_PROMPTS ""%string) TEST_PROMPTS_NoDup
                    _ _ (mod_pool_range i) (mod_pool_range j) H) as Hk.
      assert (0 <= i mod pool_size) by (apply Z.mod_pos_bound; reflexivity).
      assert (0 <= j mod pool_size) by (apply Z.mod_pos_bound; reflexivity).
      change pool_size with 10 in *. lia.
    + intros H. unfold prompt_for. change pool_size with 10. now rewrite H.
  - unfold prompt_for. change pool_size with 10.
    replace (i + 10) with (i + 1 * 10) by lia. now rewrite Z.mod_add.
  - intros p Hp. destruct (In_nth _ _ ""%string Hp) as (n & Hn & Hnth).
    change (List.length TEST_PROMPTS) with 10%nat in Hn.
    exists (i + (Z.of_nat n - i) mod 10).
    assert (Hr : 0 <= (Z.of_nat n - i) mod 10 < 10) by (apply Z.mod_pos_bound; lia).
    split; [lia|].
    unfold prompt_for. change pool_size with 10.
    rewrite Zplus_mod_idemp_r.
    replace (i + (Z.of_nat n - i)) with (Z.of_nat n) by lia.
    rewrite Z.mod_small by lia. now rewrite Nat2Z.id.
Qed.

Lemma results_In w n m o :
  In o (fst (run_concurrent_benchmark w n m)) ->
  exists id, 0 <= id < Z.of_nat (Z.to_nat n * Z.to_nat m)
             /\ o = send_completion_request (batch_session w) (prompt_for id)
                      100 (7 # 10)%Q id.
Proof.
  cbn [run_concurrent_benchmark fst]. unfold gather. rewrite build_tasks_spec, map_map.
  intros H. apply in_map_iff in H. destruct H as (id & <- & Hid).
  apply count_from_In in Hid. exists id. split; [lia|reflexivity].
Qed.

(** X6: no prompt of the pool is longer than 50 characters, so in a
    batch nothing is ever cut: the prompt field of every outcome is the
    whole prompt of its request id followed by three dots, and the id
    lies below the number of requests of the batch. *)
Theorem batch_outcome_prompts (w : Batch) (n m : Z) (o : Outcome) :
  In o (fst (run_concurrent_benchmark w n m)) ->
  prompt o = (prompt_for (request_id o) ++ "...")%string
  /\ In (prompt_for (request_id o)) TEST_PROMPTS
  /\ 0 <= request_id o < n * m.
Proof.
  intros H. apply results_In in H. destruct H as (id & Hid & ->).
  rewrite send_request_id, send_prompt.
  pose proof (prompt_for_In id) as Hin.
  split; [|split; [exact Hin|nia]].
  rewrite str_prefix_short; [reflexivity|].
  pose proof TEST_PROMPTS_short as Hs. rewrite Forall_forall in Hs. now apply Hs.
Qed.

(* ================================================================== *)
(** * What the aggregation counts *)

Local Open Scope Z_scope.

Lemma successful_of_app l1 l2 :
  successful_of (l1 ++ l2) = successful_of l1 ++ successful_of l2.
Proof. apply filter_app. Qed.

Lemma failed_of_app l1 l2 : failed_of (l1 ++ l2) = failed_of l1 ++ failed_of l2.
Proof. apply filter_app. Qed.

Lemma py_len_app {A : Type} (l1 l2 : list A) :
  py_len (l1 ++ l2) = py_len l1 + py_len l2.
Proof. unfold py_len. rewrite length_app. lia. Qed.

(** X7: a failed outcome, wherever it stands in the batch and whatever
    its latency, changes nothing but the counts: the batch still gives
    None if it gave None, and otherwise the same record with
    total_requests and failed_requests one higher. *)
Theorem failed_outcome_only_counted
    (pre post : list Outcome) (f : Outcome) (t : Q) (n : Z) :
  success f = false ->
  analyze_results (pre ++ f :: post) t n
  = match analyze_results (pre ++ post) t n with
    | Return (Some s) => Return (Some (count_failure s))
    | other => other
    end.
Proof.
  intros Hf.
  assert (Hs : successful_of (pre ++ f :: post) = successful_of (pre ++ post)).
  { rewrite !successful_of_app. unfold successful_of at 2. cbn [filter].
    now rewrite Hf. }
  destruct (successful_of (pre ++ post)) as [|o os] eqn:E.
  - rewrite (analyze_results_none (pre ++ post)) by assumption.
    apply analyze_results_none. now rewrite Hs.
  - rewrite (analyze_results_some (pre ++ post)) by congruence.
    rewrite analyze_results_some by (rewrite Hs; congruence).
    do 2 f_equal. unfold stats_of, count_failure. cbn. rewrite Hs, E.
    rewrite !failed_of_app, !py_len_app. unfold failed_of at 2. cbn [filter].
    rewrite Hf. cbn [negb]. unfold py_len, failed_of. cbn [List.length].
    f_equal; lia.
Qed.

Lemma percentile_singleton (x q : Q) : (percentile [x] q == x)%Q.
Proof.
  unfold percentile, interpolate, virtual_index. cbn [sort fold_right insert List.length].
  set (g := (_ - _)%Q). cbn. unfold at_index. cbn. ring.
Qed.

(** X8: when exactly one request of the batch succeeded, every latency
    statistic of the record is that request's latency and
    avg_tokens_per_second is its rate. *)
Theorem single_success_statistics
    (results : list Outcome) (o : Outcome) (t : Q) (n : Z) :
  successful_of results = [o] ->
  exists st : Stats,
    analyze_results results t n = Return (Some st)
    /\ successful_requests st = 1
    /\ (avg_latency st == latency o)%Q
    /\ (median_latency st == latency o)%Q
    /\ (p95_latency st == latency o)%Q
    /\ (p99_latency st == latency o)%Q
    /\ min_latency st = latency o
    /\ max_latency st = latency o
    /\ (avg_tokens_per_second st == tokens_per_second o)%Q
    /\ total_tokens_generated st = completion_tokens o.
Proof.
  intros H. exists (stats_of results t n).
  split; [apply analyze_results_some; rewrite H; discriminate|].
  unfold stats_of. cbn. rewrite H. cbn [map].
  split; [reflexivity|].
  split; [unfold mean, Qsum, Qlen; cbn; field|].
  split; [reflexivity|].
  split; [apply percentile_singleton|].
  split; [apply percentile_singleton|].
  split; [reflexivity|]. split; [reflexivity|].
  split; [unfold mean, Qsum, Qlen; cbn; field|].
  unfold py_sum. cbn. reflexivity.
Qed.

Lemma analyze_results_inv results t n s :
  analyze_results results t n = Return (Some s) ->
  successful_of results <> [] /\ s = stats_of results t n.
Proof.
  intros H. destruct (successful_of results) as [|o os] eqn:E.
  - rewrite analyze_results_none in H by assumption. discriminate.
  - rewrite analyze_results_some in H by congruence.
    split; [discriminate|]. congruence.
Qed.

Lemma successful_le results : py_len (successful_of results) <= py_len results.
Proof.
  unfold py_len, successful_of. apply inj_le, filter_length_le.
Qed.

(** X9: the record of a batch states the batch as it was run: its
    level, level * requests-per-session requests in total (both numbers
    being positive, or there would be no record), the span measured
    around the gather, and between 1 and all of the requests as
    successful, the rest as failed. *)
Theorem batch_record_counts (b : Batch) (level rps : Z) (s : Stats) :
  analyze_results (fst (run_concurrent_benchmark b level rps))
                  (snd (run_concurrent_benchmark b level rps)) level
  = Return (Some s) ->
  0 < level /\ 0 < rps
  /\ num_concurrent s = level
  /\ total_requests s = level * rps
  /\ total_time s = (gather_end b - gather_start b)%Q
  /\ 1 <= successful_requests s <= level * rps
  /\ failed_requests s = level * rps - successful_requests s.
Proof.
  intros H. apply analyze_results_inv in H. destruct H as [Hne ->].
  pose proof (run_length b level rps) as Hlen.
  pose proof (partition_lengths (fst (run_concurrent_benchmark b level rps))) as Hpart.
  pose proof (successful_le (fst (run_concurrent_benchmark b level rps))) as Hle.
  set (results := fst (run_concurrent_benchmark b level rps)) in *.
  assert (Hpos : 1 <= py_len (successful_of results)).
  { destruct (successful_of results); [congruence|]. unfold py_len. cbn. lia. }
  assert (Htot : py_len results = Z.of_nat (Z.to_nat level * Z.to_nat rps))
    by (unfold py_len; now rewrite Hlen).
  assert (Hl : 0 < level) by nia. assert (Hr : 0 < rps) by nia.
  assert (Hprod : py_len results = level * rps) by (rewrite Htot; nia).
  unfold stats_of.
  cbn [num_concurrent total_requests total_time successful_requests failed_requests].
  repeat split; try assumption; try reflexivity; try lia.
Qed.

Lemma send_outcome_facts s p mt te id :
  let o := send_completion_request s p mt te id in
  (0 <= completion_tokens o -> (0 <= tokens_per_second o)%Q)
  /\ (success o = false -> completion_tokens o = 0).
Proof.
  intros o.
  destruct (send_completion_request_cases s p mt te id)
    as [(b & text & Hr & Ht & Hs & Hl & Hc & Htt & Htps & Hresp & Herr)
       |(e & Hraise & Hne & Hs & Hl & Hc & Htt & Htps & Hresp & Herr)];
    fold o in Hs, Hl, Hc, Htt, Htps, Hresp, Herr.
  - split; [|rewrite Hs; discriminate].
    intros H0. rewrite Htps.
    destruct (Qltb 0 (latency o)) eqn:E; [|apply Qle_refl].
    apply Qdiv_nonneg; [now apply inject_Z_nonneg|now apply Qltb_lt].
  - rewrite Hc, Htps. split; [intros _; apply Qle_refl|reflexivity].
Qed.

Lemma py_sum_acc l a : fold_left Z.add l a = a + py_sum l.
Proof.
  unfold py_sum. revert a; induction l as [|x l IH]; intros a; cbn [fold_left].
  - lia.
  - rewrite IH, (IH (0 + x)). lia.
Qed.

Lemma py_sum_cons x l : py_sum (x :: l) = x + py_sum l.
Proof. unfold py_sum at 1. cbn [fold_left]. rewrite py_sum_acc. lia. Qed.

Lemma py_sum_nonneg l : Forall (fun x => 0 <= x) l -> 0 <= py_sum l.
Proof.
  induction 1 as [|x l Hx _ IH]; [reflexivity|]. rewrite py_sum_cons. lia.
Qed.

Lemma py_sum_successful results :
  (forall o, In o results -> success o = false -> completion_tokens o = 0) ->
  py_sum (map completion_tokens (successful_of results))
  = py_sum (map completion_tokens results).
Proof.
  unfold successful_of. induction results as [|r rs IH]; intros H; [reflexivity|].
  cbn [filter map]. destruct (success r) eqn:E; cbn [map]; rewrite ?py_sum_cons.
  - rewrite IH; [reflexivity|]. intros o Ho. apply H. now right.
  - rewrite IH by (intros o Ho; apply H; now right).
    rewrite (H r (or_introl eq_refl) E). lia.
Qed.

Lemma mean_nonneg l : (forall x, In x l -> (0 <= x)%Q) -> l <> [] -> (0 <= mean l)%Q.
Proof.
  intros H Hne. destruct l as [|y l]; [congruence|].
  unfold mean, Qsum. apply Qle_shift_div_l; [apply Qlen_pos|].
  pose proof (fold_sum_lower 0 (y :: l) 0 H) as Hs. lra.
Qed.

(** X10: in the record of a batch the token total counts every
    request of the batch (a failed request carries 0 tokens, so leaving
    the failed ones out loses nothing); when no outcome of the batch
    has a negative completion_tokens, the total, the average rate and
    the overall throughput are not negative either. *)
Theorem batch_record_rates (b : Batch) (level rps : Z) (s : Stats) :
  analyze_results (fst (run_concurrent_benchmark b level rps))
                  (snd (run_concurrent_benchmark b level rps)) level
  = Return (Some s) ->
  total_tokens_generated s
  = py_sum (map completion_tokens (fst (run_concurrent_benchmark b level rps)))
  /\ ((forall o, In o (fst (run_concurrent_benchmark b level rps)) ->
         0 <= completion_tokens o) ->
      0 <= total_tokens_generated s
      /\ (0 <= avg_tokens_per_second s)%Q
      /\ (0 <= overall_throughput s)%Q).
Proof.
  intros H. apply analyze_results_inv in H. destruct H as [Hne ->].
  set (results := fst (run_concurrent_benchmark b level rps)) in *.
  assert (Hfacts : forall o, In o results ->
            (0 <= completion_tokens o -> (0 <= tokens_per_second o)%Q)
            /\ (success o = false -> completion_tokens o = 0)).
  { intros o Ho. apply results_In in Ho. destruct Ho as (id & _ & ->).
    apply send_outcome_facts. }
  assert (Hin : forall o, In o (successful_of results) -> In o results).
  { intros o Ho. unfold successful_of in Ho. now apply filter_In in Ho. }
  unfold stats_of.
  cbn [total_tokens_generated avg_tokens_per_second overall_throughput].
  split.
  - apply py_sum_successful. intros o Ho. now apply Hfacts.
  - intros Hpos.
    assert (Htok : 0 <= py_sum (map completion_tokens (successful_of results))).
    { apply py_sum_nonneg, Forall_forall. intros x Hx.
      apply in_map_iff in Hx. destruct Hx as (o & <- & Ho).
      now apply Hpos, Hin. }
    split; [exact Htok|split].
    + apply mean_nonneg.
      * intros x Hx. apply in_map_iff in Hx. destruct Hx as (o & <- & Ho).
        apply Hfacts; [now apply Hin|now apply Hpos, Hin].
      * destruct (successful_of results); [congruence|discriminate].
    + destruct (Qltb 0 (snd (run_concurrent_benchmark b level rps))) eqn:E;
        [|apply Qle_refl].
      apply Qdiv_nonneg; [now apply inject_Z_nonneg|now apply Qltb_lt].
Qed.

(** X11: for every record the aggregation returns, the success rate of
    the summary table is computed without a division by zero (a record
    has at least one request) and lies above 0 and at most at 100; it
    is 100 exactly when no request failed. *)
Theorem success_rate_defined (results : list Outcome) (t : Q) (n : Z) (s : Stats) :
  analyze_results results t n = Return (Some s) ->
  exists r : Q,
    success_rate s = Return r
    /\ (r == inject_Z (successful_requests s) / inject_Z (total_requests s) * 100)%Q
    /\ (0 < r)%Q /\ (r <= 100)%Q
    /\ ((r == 100)%Q <-> failed_requests s = 0).
Proof.
  intros H. apply analyze_results_inv in H. destruct H as [Hne ->].
  pose proof (partition_lengths results) as Hpart.
  pose proof (successful_le results) as Hle.
  assert (Hpos : 1 <= py_len (successful_of results)).
  { destruct (successful_of results); [congruence|]. unfold py_len. cbn. lia. }
  assert (Hfail : 0 <= py_len (failed_of results)) by (unfold py_len; lia).
  unfold success_rate, stats_of. cbn [successful_requests total_requests failed_requests].
  set (a := py_len (successful_of results)) in *.
  set (f := py_len (failed_of results)) in *.
  set (c := py_len results) in *.
  assert (Hc : (0 < inject_Z c)%Q).
  { change 0%Q with (inject_Z 0). rewrite <- Zlt_Qlt. lia. }
  assert (Ha : (0 < inject_Z a)%Q).
  { change 0%Q with (inject_Z 0). rewrite <- Zlt_Qlt. lia. }
  assert (Hac : (inject_Z a <= inject_Z c)%Q) by (rewrite <- Zle_Qle; lia).
  rewrite (py_div_pos _ _ Hc). cbn [bind].
  exists (inject_Z a / inject_Z c * 100)%Q.
  split; [reflexivity|]. split; [reflexivity|].
  assert (Hq0 : (0 < inject_Z a / inject_Z c)%Q).
  { apply Qlt_shift_div_l; [exact Hc|]. lra. }
  assert (Hq1 : (inject_Z a / inject_Z c <= 1)%Q).
  { apply Qle_shift_div_r; [exact Hc|]. lra. }
  split; [lra|]. split; [lra|].
  split.
  - intros Heq.
    assert (Hone : (inject_Z a / inject_Z c == 1)%Q) by lra.
    assert (Hac' : (inject_Z a == inject_Z c)%Q).
    { rewrite <- (Qmult_div_r (inject_Z a) (inject_Z c)) by lra.
      rewrite Hone. ring. }
    pose proof (proj1 (inject_Z_injective a c) Hac') as Heq'. lia.
  - intros Hf0. assert (a = c) by lia. subst a. rewrite H.
    field. lra.
Qed.

(* ================================================================== *)
(** * The order of the outcomes *)

Section Order.

Local Open Scope Q_scope.

Lemma Qle_bool_false x y : Qle_bool x y = false -> y < x.
Proof.
  intros H. apply Qnot_le_lt. intros Hle. apply Qle_bool_iff in Hle. congruence.
Qed.

Ltac order_cases :=
  repeat match goal with
         | |- context [Qle_bool ?u ?v] =>
             let E := fresh "E" in
             destruct (Qle_bool u v) eqn:E;
             [apply Qle_bool_iff in E|apply Qle_bool_false in E]
         end.

Lemma pointwise_refl l : Forall2 Qeq l l.
Proof. induction l; constructor; [reflexivity|assumption]. Qed.

Lemma pointwise_trans l1 l2 l3 :
  Forall2 Qeq l1 l2 -> Forall2 Qeq l2 l3 -> Forall2 Qeq l1 l3.
Proof.
  intros H; revert l3; induction H as [|x y l1 l2 Hxy _ IH]; intros l3 H3;
    inversion H3; subst; constructor.
  - now rewrite Hxy.
  - now apply IH.
Qed.

Lemma insert_pointwise x l l' :
  Forall2 Qeq l l' -> Forall2 Qeq (insert x l) (insert x l').
Proof.
  induction 1 as [|y y' l l' Hy Hl IH]; cbn [insert].
  - apply pointwise_refl.
  - order_cases; try (exfalso; lra).
    + constructor; [reflexivity|]. now constructor.
    + constructor; assumption.
Qed.

Lemma insert_swap x y l :
  Forall2 Qeq (insert x (insert y l)) (insert y (insert x l)).
Proof.
  induction l as [|z l IH]; cbn [insert].
  - order_cases; try (exfalso; lra).
    + repeat constructor; lra.
    + apply pointwise_refl.
    + apply pointwise_refl.
  - destruct (Qle_bool y z) eqn:Eyz, (Qle_bool x z) eqn:Exz; cbn [insert];
      rewrite ?Eyz, ?Exz;
      [apply Qle_bool_iff in Eyz|apply Qle_bool_iff in Eyz
      |apply Qle_bool_false in Eyz|apply Qle_bool_false in Eyz];
      [apply Qle_bool_iff in Exz|apply Qle_bool_false in Exz
      |apply Qle_bool_iff in Exz|apply Qle_bool_false in Exz].
    + order_cases; try (exfalso; lra).
      * constructor; [lra|]. constructor; [lra|]. apply pointwise_refl.
      * apply pointwise_refl.
      * apply pointwise_refl.
    + order_cases; try (exfalso; lra). apply pointwise_refl.
    + order_cases; try (exfalso; lra). apply pointwise_refl.
    + constructor; [reflexivity|exact IH].
Qed.

Lemma sort_pointwise l l' : Permutation l l' -> Forall2 Qeq (sort l) (sort l').
Proof.
  induction 1 as [|x l l' _ IH|x y l|l1 l2 l3 _ IH1 _ IH2].
  - constructor.
  - cbn. now apply insert_pointwise.
  - cbn. apply insert_swap.
  - now apply (pointwise_trans _ (sort l2)).
Qed.

Lemma pointwise_at_index a a' i :
  Forall2 Qeq a a' -> at_index a i == at_index a' i.
Proof.
  intros H; revert i; induction H as [|x y a a' Hxy _ IH]; intros i;
    unfold at_index; destruct i; cbn [nth]; try reflexivity; [exact Hxy|apply IH].
Qed.

Lemma pointwise_length a a' : Forall2 Qeq a a' -> List.length a = List.length a'.
Proof. induction 1; cbn; congruence. Qed.

Lemma median_perm l l' : Permutation l l' -> median l == median l'.
Proof.
  intros H. pose proof (sort_pointwise l l' H) as Hs.
  unfold median. rewrite <- (pointwise_length _ _ Hs).
  destruct (Nat.even (List.length (sort l))).
  - now rewrite !(pointwise_at_index _ _ _ Hs).
  - apply pointwise_at_index, Hs.
Qed.

Lemma percentile_perm l l' q : Permutation l l' -> percentile l q == percentile l' q.
Proof.
  intros H. pose proof (sort_pointwise l l' H) as Hs.
  unfold percentile, interpolate. rewrite <- (pointwise_length _ _ Hs).
  now rewrite !(pointwise_at_index _ _ _ Hs).
Qed.

Lemma Qsum_acc l a : fold_left Qplus l a == a + Qsum l.
Proof.
  unfold Qsum. revert a; induction l as [|x l IH]; intros a; cbn [fold_left].
  - ring.
  - rewrite IH, (IH (0 + x)). ring.
Qed.

Lemma Qsum_cons x l : Qsum (x :: l) == x + Qsum l.
Proof. unfold Qsum at 1. cbn [fold_left]. rewrite Qsum_acc. ring. Qed.

Lemma Qsum_perm l l' : Permutation l l' -> Qsum l == Qsum l'.
Proof.
  induction 1 as [|x l l' _ IH|x y l|l1 l2 l3 _ IH1 _ IH2].
  - reflexivity.
  - now rewrite !Qsum_cons, IH.
  - rewrite !Qsum_cons. ring.
  - now rewrite IH1.
Qed.

Lemma mean_perm l l' : Permutation l l' -> mean l == mean l'.
Proof.
  intros H. unfold mean, Qlen.
  now rewrite (Qsum_perm _ _ H), (Permutation_length H).
Qed.

Lemma fold_min_In l acc : In (fold_left Qmin l acc) (acc :: l).
Proof.
  revert acc; induction l as [|x l IH]; intros acc; cbn [fold_left].
  - now left.
  - destruct (IH (Qmin acc x)) as [H|H]; [|right; now right].
    rewrite <- H. unfold Qmin, GenericMinMax.gmin.
    destruct (acc ?= x); [now left|now left|right; now left].
Qed.

Lemma fold_max_In l acc : In (fold_left Qmax l acc) (acc :: l).
Proof.
  revert acc; induction l as [|x l IH]; intros acc; cbn [fold_left].
  - now left.
  - destruct (IH (Qmax acc x)) as [H|H]; [|right; now right].
    rewrite <- H. unfold Qmax, GenericMinMax.gmax.
    destruct (acc ?= x); [now left|right; now left|now left].
Qed.

Lemma minimum_In l : l <> [] -> In (minimum l) l.
Proof. destruct l; [congruence|]. intros _. apply fold_min_In. Qed.

Lemma maximum_In l : l <> [] -> In (maximum l) l.
Proof. destruct l; [congruence|]. intros _. apply fold_max_In. Qed.

Lemma minimum_perm l l' : l <> [] -> Permutation l l' -> minimum l == minimum l'.
Proof.
  intros Hne H.
  assert (Hne' : l' <> []).
  { intros ->. apply Permutation_sym, Permutation_nil in H. contradiction. }
  apply Qle_antisym.
  - apply minimum_le. apply (Permutation_in _ (Permutation_sym H)).
    now apply minimum_In.
  - apply minimum_le. apply (Permutation_in _ H). now apply minimum_In.
Qed.

Lemma maximum_perm l l' : l <> [] -> Permutation l l' -> maximum l == maximum l'.
Proof.
  intros Hne H.
  assert (Hne' : l' <> []).
  { intros ->. apply Permutation_sym, Permutation_nil in H. contradiction. }
  apply Qle_antisym.
  - apply maximum_ge. apply (Permutation_in _ H). now apply maximum_In.
  - apply maximum_ge. apply (Permutation_in _ (Permutation_sym H)).
    now apply maximum_In.
Qed.

Lemma filter_perm {A : Type} (f : A -> bool) l l' :
  Permutation l l' -> Permutation (filter f l) (filter f l').
Proof.
  induction 1 as [|x l l' _ IH|x y l|l1 l2 l3 _ IH1 _ IH2]; cbn [filter].
  - constructor.
  - destruct (f x); [now constructor|assumption].
  - destruct (f x), (f y); try reflexivity. apply perm_swap.
  - now rewrite IH1.
Qed.

Lemma py_sum_perm l l' : Permutation l l' -> py_sum l = py_sum l'.
Proof.
  induction 1 as [|x l l' _ IH|x y l|l1 l2 l3 _ IH1 _ IH2].
  - reflexivity.
  - now rewrite !py_sum_cons, IH.
  - rewrite !py_sum_cons. lia.
  - congruence.
Qed.

End Order.

(** X12: the aggregation does not depend on the order in which the
    outcomes were collected: a batch and any rearrangement of it both
    give None, or give records with the same counts and token total
    and with equal statistics. *)
Theorem statistics_ignore_order (results results' : list Outcome) (t : Q) (n : Z) :
  Permutation results results' ->
  match analyze_results results t n, analyze_results results' t n with
  | Return None, Return None => True
  | Return (Some s), Return (Some s') => stats_eq s s'
  | _, _ => False
  end.
Proof.
  intros H.
  pose proof (filter_perm (fun r => success r) _ _ H) as Hs.
  pose proof (filter_perm (fun r => negb (success r)) _ _ H) as Hf.
  fold (successful_of results) (successful_of results') in Hs.
  fold (failed_of results) (failed_of results') in Hf.
  destruct (successful_of results) as [|o os] eqn:E.
  - apply Permutation_nil in Hs.
    rewrite !analyze_results_none by assumption. exact I.
  - assert (Hne' : successful_of results' <> []).
    { intros H0. rewrite H0 in Hs. apply Permutation_sym, Permutation_nil in Hs.
      discriminate. }
    rewrite !analyze_results_some by congruence.
    rewrite <- E in Hs.
    assert (Hlat : Permutation (map latency (successful_of results))
                               (map latency (successful_of results')))
      by now apply Permutation_map.
    assert (Hlne : map latency (successful_of results) <> [])
      by (rewrite E; discriminate).
    assert (Htok : py_sum (map completion_tokens (successful_of results))
                   = py_sum (map completion_tokens (successful_of results')))
      by now apply py_sum_perm, Permutation_map.
    unfold stats_eq, stats_of. cbn.
    rewrite <- Htok.
    unfold py_len.
    rewrite (Permutation_length H), (Permutation_length Hs), (Permutation_length Hf).
    repeat split; try reflexivity.
    + now apply mean_perm.
    + now apply median_perm.
    + now apply percentile_perm.
    + now apply percentile_perm.
    + now apply minimum_perm.
    + now apply maximum_perm.
    + now apply mean_perm, Permutation_map.
Qed.

(* ================================================================== *)
(** * The records of a sweep *)

Local Open Scope Z_scope.

Lemma contribution_cases w rps k level :
  (contribution w rps (k, level) = []
   /\ forall o, In o (fst (run_concurrent_benchmark (w k) level rps)) ->
        success o = false)
  \/ (exists s, contribution w rps (k, level) = [s]
        /\ num_concurrent s = level
        /\ analyze_results (fst (run_concurrent_benchmark (w k) level rps))
                           (snd (run_concurrent_benchmark (w k) level rps)) level
           = Return (Some s)
        /\ exists o, In o (fst (run_concurrent_benchmark (w k) level rps))
                     /\ success o = true).
Proof.
  unfold contribution. cbn [fst snd].
  destruct (batch_stats w rps k level) as [s|] eqn:E.
  - right. exists s. split; [reflexivity|].
    split; [now apply batch_stats_level in E|].
    split; [now rewrite analyze_results_batch_stats, E|].
    destruct (existsb (fun o => success o)
                (fst (run_concurrent_benchmark (w k) level rps))) eqn:Hex.
    + apply existsb_exists in Hex. exact Hex.
    + exfalso. assert (Hnone : batch_stats w rps k level = None).
      { apply batch_stats_none. intros o Ho.
        destruct (success o) eqn:Hs; [|reflexivity].
        assert (existsb (fun o => success o)
                  (fst (run_concurrent_benchmark (w k) level rps)) = true)
          by (apply existsb_exists; now exists o).
        congruence. }
      congruence.
  - left. split; [reflexivity|]. now apply batch_stats_none.
Qed.

Lemma numbered_cons k level ls :
  numbered k (level :: ls) = (k, level) :: numbered (S k) ls.
Proof. reflexivity. Qed.

Lemma subseq_Forall {A : Type} (P : A -> Prop) l l' :
  Subseq l l' -> Forall P l' -> Forall P l.
Proof.
  induction 1 as [|x l l' _ IH|x l l' _ IH]; intros H; inversion H; subst; auto.
Qed.

Lemma subseq_sorted {A : Type} (R : A -> A -> Prop) l l' :
  Subseq l l' -> StronglySorted R l' -> StronglySorted R l.
Proof.
  induction 1 as [|x l l' Hs IH|x l l' Hs IH]; intros H; inversion H; subst; auto.
  constructor; [auto|]. now apply (subseq_Forall _ _ _ Hs).
Qed.

Lemma subseq_length {A : Type} (l l' : list A) :
  Subseq l l' -> (List.length l <= List.length l')%nat.
Proof. induction 1; cbn; lia. Qed.

Lemma run_levels_subseq w rps k levels :
  Subseq (map num_concurrent (flat_map (contribution w rps) (numbered k levels)))
         levels.
Proof.
  revert k; induction levels as [|level ls IH]; intros k; [constructor|].
  rewrite numbered_cons. cbn [flat_map]. rewrite map_app.
  destruct (contribution_cases w rps k level) as [[-> _]|(s & -> & Hl & _)].
  - cbn [map app]. apply Subseq_skip, IH.
  - cbn [map app]. rewrite Hl. apply Subseq_keep, IH.
Qed.

(** X13: the levels of the records of a run are the levels of the
    sweep with some left out, in the same order: there are at most as
    many records as levels, and when the levels are strictly
    increasing (as the 1, 2, 4, 8, 16 of main) so are the levels of the
    records, so that no level is reported twice. *)
Theorem run_levels_in_order (w : World) (levels : list Z) (rps : Z) :
  exists run : list Stats,
    sweep w levels rps = Return run
    /\ Subseq (map num_concurrent run) levels
    /\ (List.length run <= List.length levels)%nat
    /\ (StronglySorted Z.lt levels ->
        StronglySorted Z.lt (map num_concurrent run)).
Proof.
  eexists. split; [apply sweep_spec|].
  pose proof (run_levels_subseq w rps 0 levels) as H.
  split; [exact H|]. split.
  - apply subseq_length in H. now rewrite length_map in H.
  - now apply subseq_sorted.
Qed.

Lemma numbered_In k levels j level :
  In (j, level) (numbered k levels)
  <-> (k <= j)%nat /\ nth_error levels (j - k) = Some level.
Proof.
  revert k; induction levels as [|l ls IH]; intros k.
  - cbn. split; [intros []|]. intros [_ H]. destruct (j - k)%nat; discriminate.
  - rewrite numbered_cons. cbn [In]. rewrite IH. split.
    + intros [H|[Hle Hnth]].
      * injection H as <- <-. split; [lia|]. now rewrite Nat.sub_diag.
      * split; [lia|]. replace (j - k)%nat with (S (j - S k)) by lia. exact Hnth.
    + intros [Hle Hnth]. destruct (Nat.eq_dec j k) as [->|Hne].
      * left. rewrite Nat.sub_diag in Hnth. cbn in Hnth. congruence.
      * right. split; [lia|].
        replace (j - k)%nat with (S (j - S k)) in Hnth by lia. exact Hnth.
Qed.

Lemma flat_map_nil {A B : Type} (f : A -> list B) l :
  flat_map f l = [] <-> forall x, In x l -> f x = [].
Proof.
  induction l as [|a l IH]; cbn [flat_map In].
  - split; [intros _ x []|reflexivity].
  - split.
    + intros H. apply app_eq_nil in H. destruct H as [Ha Hl].
      intros x [<-|Hx]; [exact Ha|]. now apply IH.
    + intros H. rewrite (H a (or_introl eq_refl)). cbn. apply IH.
      intros x Hx. apply H. now right.
Qed.

(** X14: a run is empty exactly when no request succeeded at any
    level of the sweep; in particular one successful request anywhere
    is enough for the run to hold a record. *)
Theorem run_empty_iff (w : World) (levels : list Z) (rps : Z) :
  sweep w levels rps = Return []
  <-> forall k level, nth_error levels k = Some level ->
        forall o, In o (fst (run_concurrent_benchmark (w k) level rps)) ->
          success o = false.
Proof.
  rewrite sweep_spec. split.
  - intros H. injection H as H. rewrite flat_map_nil in H.
    intros k level Hnth.
    assert (Hin : In (k, level) (numbered 0 levels)).
    { apply numbered_In. split; [lia|]. now rewrite Nat.sub_0_r. }
    specialize (H _ Hin).
    destruct (contribution_cases w rps k level) as [[_ Hall]|(s & Hs & _)];
      [exact Hall|congruence].
  - intros H. f_equal. apply flat_map_nil. intros [k level] Hin.
    apply numbered_In in Hin. destruct Hin as [_ Hnth].
    rewrite Nat.sub_0_r in Hnth. specialize (H k level Hnth).
    destruct (contribution_cases w rps k level) as [[Hc _]|(s & _ & _ & _ & o & Ho & Hs)];
      [exact Hc|].
    rewrite (H o Ho) in Hs. discriminate.
Qed.

Lemma run_all_levels w rps k levels :
  (forall j level, nth_error levels j = Some level ->
     exists o, In o (fst (run_concurrent_benchmark (w (k + j)%nat) level rps))
               /\ success o = true) ->
  map num_concurrent (flat_map (contribution w rps) (numbered k levels)) = levels.
Proof.
  revert k; induction levels as [|level ls IH]; intros k H; [reflexivity|].
  rewrite numbered_cons. cbn [flat_map]. rewrite map_app.
  destruct (contribution_cases w rps k level) as [[_ Hall]|(s & -> & Hl & _)].
  - destruct (H 0%nat level eq_refl) as (o & Ho & Hs).
    rewrite Nat.add_0_r in Ho. rewrite (Hall o Ho) in Hs. discriminate.
  - cbn [map app]. rewrite Hl. f_equal. apply IH.
    intros j l Hj. replace (S k + j)%nat with (k + S j)%nat by lia.
    now apply H.
Qed.

(** X15: when every level of the sweep has a successful request, the
    run holds exactly one record per level, in the order of the
    levels. *)
Theorem run_complete (w : World) (levels : list Z) (rps : Z) :
  (forall k level, nth_error levels k = Some level ->
     exists o, In o (fst (run_concurrent_benchmark (w k) level rps))
               /\ success o = true) ->
  exists run : list Stats,
    sweep w levels rps = Return run
    /\ map num_concurrent run = levels
    /\ List.length run = List.length levels.
Proof.
  intros H. eexists. split; [apply sweep_spec|].
  assert (Hmap : map num_concurrent
                   (flat_map (contribution w rps) (numbered 0 levels)) = levels)
    by (apply run_all_levels; exact H).
  split; [exact Hmap|].
  rewrite <- Hmap at 2. now rewrite length_map.
Qed.

Lemma numbered_app k l1 l2 :
  numbered k (l1 ++ l2) = numbered k l1 ++ numbered (k + List.length l1) l2.
Proof.
  revert k; induction l1 as [|x l1 IH]; intros k.
  - cbn. now rewrite Nat.add_0_r.
  - cbn [app]. rewrite !numbered_cons, IH. cbn [app List.length].
    do 2 f_equal. f_equal. lia.
Qed.

Lemma contribution_later w rps n k levels :
  flat_map (contribution (later n w) rps) (numbered k levels)
  = flat_map (contribution w rps) (numbered (n + k) levels).
Proof.
  revert k; induction levels as [|level ls IH]; intros k; [reflexivity|].
  rewrite !numbered_cons. cbn [flat_map]. rewrite IH.
  replace (n + S k)%nat with (S (n + k)) by lia. reflexivity.
Qed.

(** X16: sweeps compose: the run over one list of levels followed by
    another is the run over the first list followed by the run over
    the second, the second sweep meeting the batches that come after
    those of the first. *)
Theorem sweep_app (w : World) (l1 l2 : list Z) (rps : Z) :
  sweep w (l1 ++ l2) rps
  = (r1 <- sweep w l1 rps ;;
     r2 <- sweep (later (List.length l1) w) l2 rps ;;
     Return (r1 ++ r2)).
Proof.
  rewrite !sweep_spec. cbn [bind]. f_equal.
  rewrite numbered_app, flat_map_app, contribution_later.
  now rewrite Nat.add_0_r.
Qed.

(* ================================================================== *)
(** * The report *)

Lemma record_counts results t n s :
  analyze_results results t n = Return (Some s) ->
  1 <= successful_requests s <= total_requests s.
Proof.
  intros H. apply analyze_results_inv in H. destruct H as [Hne ->].
  pose proof (successful_le results) as Hle.
  unfold stats_of. cbn [successful_requests total_requests].
  destruct (successful_of results); [congruence|].
  unfold py_len in *. cbn [List.length] in *. lia.
Qed.

Lemma success_rate_bounds s :
  1 <= successful_requests s <= total_requests s ->
  exists rate, success_rate s = Return rate /\ (0 < rate)%Q /\ (rate <= 100)%Q.
Proof.
  intros [H1 H2]. unfold success_rate.
  assert (Hc : (0 < inject_Z (total_requests s))%Q).
  { change 0%Q with (inject_Z 0). rewrite <- Zlt_Qlt. lia. }
  assert (Ha : (0 < inject_Z (successful_requests s))%Q).
  { change 0%Q with (inject_Z 0). rewrite <- Zlt_Qlt. lia. }
  assert (Hac : (inject_Z (successful_requests s) <= inject_Z (total_requests s))%Q)
    by (rewrite <- Zle_Qle; lia).
  rewrite (py_div_pos _ _ Hc). cbn [bind]. eexists. split; [reflexivity|].
  assert (Hq0 : (0 < inject_Z (successful_requests s) / inject_Z (total_requests s))%Q).
  { apply Qlt_shift_div_l; [exact Hc|]. lra. }
  assert (Hq1 : (inject_Z (successful_requests s) / inject_Z (total_requests s) <= 1)%Q).
  { apply Qle_shift_div_r; [exact Hc|]. lra. }
  split; lra.
Qed.

Lemma summary_rows run :
  Forall (fun s => 1 <= successful_requests s <= total_requests s) run ->
  exists rows, summary run = Return rows /\ Forall2 row_of run rows.
Proof.
  induction 1 as [|s run Hs _ IH]; cbn [summary].
  - exists []. split; [reflexivity|constructor].
  - destruct (success_rate_bounds s Hs) as (rate & Hrate & H0 & H1).
    destruct IH as (rows & Hrows & Hall).
    rewrite Hrate, Hrows. cbn [bind]. eexists. split; [reflexivity|].
    constructor; [|exact Hall]. exists rate. repeat split; assumption.
Qed.

Lemma run_records_counted w rps k levels :
  Forall (fun s => 1 <= successful_requests s <= total_requests s)
         (flat_map (contribution w rps) (numbered k levels)).
Proof.
  revert k; induction levels as [|level ls IH]; intros k; [constructor|].
  rewrite numbered_cons. cbn [flat_map]. apply Forall_app. split; [|apply IH].
  destruct (contribution_cases w rps k level) as [[-> _]|(s & -> & _ & Ha & _)].
  - constructor.
  - constructor; [|constructor]. now apply record_counts in Ha.
Qed.

(** X17: main ends in one of three ways and never with an exception.
    Unless the server answered the probe with status 200 it exits with
    code 1.  Otherwise it runs the sweep; when the run is empty it
    leaves nothing behind (no plot, no results file), and when it is
    not it makes the plots, writes the results file with the whole run
    and prints one summary row per record, whose success rate is
    computed without dividing by zero and lies above 0 and at most at
    100. *)
Theorem main_report (probe : Probe) (w : World) :
  exists events : list Event,
    run_main probe w = Return events
    /\ (probe <> Answered 200 -> events = [Exit 1])
    /\ (probe = Answered 200 ->
        exists run : list Stats,
          main w = Return run
          /\ (run = [] -> events = [])
          /\ (run <> [] ->
              exists rows,
                events = Visualized run :: Dumped run :: rows
                /\ Forall2 row_of run rows))
    /\ (forall l, In (Dumped l) events -> l <> [] /\ main w = Return l).
Proof.
  destruct probe as [status|msg].
  2:{ exists [Exit 1]. split; [reflexivity|]. split; [reflexivity|].
      split; [discriminate|]. intros l [H|[]]. discriminate. }
  unfold run_main. destruct (status =? 200) eqn:E.
  - apply Z.eqb_eq in E. subst status.
    unfold main. rewrite sweep_spec. cbn [bind].
    pose proof (run_records_counted w requests_per_session 0 concurrency_levels) as Hc.
    set (run := flat_map _ _) in *.
    destruct run as [|s run'] eqn:Hrun.
    + exists []. split; [reflexivity|]. split; [congruence|].
      split; [|intros l []].
      intros _. exists []. split; [reflexivity|]. split; [reflexivity|congruence].
    + destruct (summary_rows _ Hc) as (rows & Hrows & Hall).
      rewrite Hrows. cbn [bind]. eexists. split; [reflexivity|].
      split; [congruence|]. split.
      * intros _. exists (s :: run'). split; [reflexivity|].
        split; [discriminate|]. intros _. exists rows. now split.
      * intros l [H|[H|H]]; try discriminate.
        -- injection H as <-. split; [discriminate|reflexivity].
        -- exfalso. clear -Hall H. revert H.
           generalize (s :: run'). intros l0. induction Hall as [|x y l1 l2 Hxy _ IH].
           ++ intros [].
           ++ intros [H|H]; [|now apply IH].
              destruct Hxy as (rate & -> & _). discriminate.
  - apply Z.eqb_neq in E. exists [Exit 1]. split; [reflexivity|].
    split; [reflexivity|]. split; [intros H; congruence|].
    intros l [H|[]]. discriminate.
Qed.

(* ================================================================== *)
(** * Clocks *)

Lemma send_latency s p mt te id :
  let x := s id in
  let o := send_completion_request s p mt te id in
  latency o = (t_end x - t_start x)%Q \/ latency o = (t_handler x - t_start x)%Q.
Proof.
  intros x o.
  destruct (send_completion_request_cases s p mt te id)
    as [(b & text & Hr & Ht & Hs & Hl & _)|(e & Hraise & Hne & Hs & Hl & _)];
    fold o x in Hl.
  - now left.
  - unfold handler_time in Hl. destruct (reply x); [now right|now right|now left].
Qed.

(** X18: the latency of an outcome is a difference of two readings of
    the wall clock, so it is non-negative when the clock does not step
    back during the request; when that holds for every request of a
    batch, no latency statistic of the batch's record is negative.
    (With a clock that steps back a latency can be negative; the rate
    of such an outcome is 0.) *)
Theorem latencies_nonnegative (b : Batch) (level rps : Z) (s : Stats) :
  (forall id, (t_start (batch_session b id) <= t_end (batch_session b id))%Q
              /\ (t_end (batch_session b id) <= t_handler (batch_session b id))%Q) ->
  analyze_results (fst (run_concurrent_benchmark b level rps))
                  (snd (run_concurrent_benchmark b level rps)) level
  = Return (Some s) ->
  (forall o, In o (fst (run_concurrent_benchmark b level rps)) -> (0 <= latency o)%Q)
  /\ (0 <= min_latency s)%Q /\ (0 <= avg_latency s)%Q
  /\ (0 <= median_latency s)%Q /\ (0 <= p95_latency s)%Q
  /\ (0 <= p99_latency s)%Q /\ (0 <= max_latency s)%Q.
Proof.
  intros Hclock H. apply analyze_results_inv in H. destruct H as [Hne ->].
  set (results := fst (run_concurrent_benchmark b level rps)) in *.
  assert (Hlat : forall o, In o results -> (0 <= latency o)%Q).
  { intros o Ho. apply results_In in Ho. destruct Ho as (id & _ & ->).
    destruct (Hclock id) as [H1 H2].
    destruct (send_latency (batch_session b) (prompt_for id) 100 (7 # 10)%Q id)
      as [->| ->]; lra. }
  split; [exact Hlat|].
  unfold stats_of.
  cbn [min_latency avg_latency median_latency p95_latency p99_latency max_latency].
  set (l := map latency (successful_of results)).
  assert (Hl : l <> []).
  { subst l. destruct (successful_of results); [congruence|discriminate]. }
  destruct (latency_order l Hl) as (H1 & H2 & H3 & H4 & H5 & H6).
  assert (Hmin : (0 <= minimum l)%Q).
  { pose proof (minimum_In l Hl) as Hin. subst l.
    apply in_map_iff in Hin. destruct Hin as (o & Ho & Hin). rewrite <- Ho.
    apply Hlat. unfold successful_of in Hin. now apply filter_In in Hin. }
  repeat split; lra.
Qed.

(* ================================================================== *)
(** * The properties on the sample runs *)

Local Open Scope Q_scope.

Lemma outcome_usage_defaults_witness :
  success (send_completion_request (fun _ => bare) "Hi" 100 (7 # 10) 0) = true
  /\ completion_tokens (send_completion_request (fun _ => bare) "Hi" 100 (7 # 10) 0)
     = 0%Z
  /\ tokens_per_second (send_completion_request (fun _ => bare) "Hi" 100 (7 # 10) 0)
     == 0.
Proof.
  destruct (outcome_usage_defaults (fun _ => bare) "Hi" 100 (7 # 10) 0
              {| body_usage := None; body_choices := None |} eq_refl
              ltac:(discriminate)) as (Hs & Hc & _).
  split; [exact Hs|]. apply Hc. intros u Hu. discriminate Hu.
Defined.

Lemma batch_outcome_prompts_witness :
  prompt (run_task (batch_session steady_batch) (task_of 12))
  = "Write a short poem about nature...."%string
  /\ (0 <= 12 < 2 * 8)%Z.
Proof.
  destruct (batch_outcome_prompts steady_batch 2 8
              (run_task (batch_session steady_batch) (task_of 12)))
    as (Hp & _ & Hid).
  - cbn [run_concurrent_benchmark fst]. unfold gather.
    apply in_map. rewrite build_tasks_spec. apply in_map.
    apply count_from_In. cbn. lia.
  - split; [exact Hp|exact Hid].
Defined.

Lemma failed_outcome_only_counted_witness :
  analyze_results
    (run_task (batch_session dead_batch) (task_of 0)
     :: fst (run_concurrent_benchmark steady_batch 1 5)) 5 1
  = match analyze_results (fst (run_concurrent_benchmark steady_batch 1 5)) 5 1 with
    | Return (Some s) => Return (Some (count_failure s))
    | other => other
    end.
Proof.
  exact (failed_outcome_only_counted []
           (fst (run_concurrent_benchmark steady_batch 1 5))
           (run_task (batch_session dead_batch) (task_of 0)) 5 1 eq_refl).
Defined.

Lemma single_success_statistics_witness :
  exists st : Stats,
    analyze_results (fst (run_concurrent_benchmark flaky_batch 1 5)) 3 1
    = Return (Some st)
    /\ successful_requests st = 1%Z
    /\ median_latency st == 2
    /\ p99_latency st == 2.
Proof.
  destruct (single_success_statistics
              (fst (run_concurrent_benchmark flaky_batch 1 5))
              (run_task (batch_session flaky_batch) (task_of 0)) 3 1 eq_refl)
    as (st & Hst & Hn & _ & Hmed & _ & Hp99 & _).
  exists st. repeat split; assumption.
Defined.

Lemma steady_record :
  analyze_results (fst (run_concurrent_benchmark steady_batch 1 5))
                  (snd (run_concurrent_benchmark steady_batch 1 5)) 1
  = Return (Some (stats_of (fst (run_concurrent_benchmark steady_batch 1 5))
                           (snd (run_concurrent_benchmark steady_batch 1 5)) 1)).
Proof. apply analyze_results_some. vm_compute. discriminate. Qed.

Lemma batch_record_counts_witness :
  total_requests (stats_of (fst (run_concurrent_benchmark steady_batch 1 5))
                           (snd (run_concurrent_benchmark steady_batch 1 5)) 1)
  = (1 * 5)%Z.
Proof.
  exact (proj1 (proj2 (proj2 (proj2
           (batch_record_counts steady_batch 1 5 _ steady_record))))).
Defined.

Lemma batch_record_rates_witness :
  (0 <= total_tokens_generated
          (stats_of (fst (run_concurrent_benchmark steady_batch 1 5))
                    (snd (run_concurrent_benchmark steady_batch 1 5)) 1))%Z.
Proof.
  refine (proj1 (proj2 (batch_record_rates steady_batch 1 5 _ steady_record) _)).
  intros o Ho. vm_compute in Ho.
  repeat (destruct Ho as [<-|Ho]; [discriminate|]). destruct Ho.
Defined.

Lemma success_rate_defined_witness :
  exists r : Q,
    success_rate (stats_of (fst (run_concurrent_benchmark steady_batch 1 5))
                           (snd (run_concurrent_benchmark steady_batch 1 5)) 1)
    = Return r
    /\ 0 < r /\ r <= 100.
Proof.
  destruct (success_rate_defined _ _ _ _ steady_record) as (r & Hr & _ & H0 & H1 & _).
  exists r. repeat split; assumption.
Defined.

Lemma statistics_ignore_order_witness :
  match analyze_results (fst (run_concurrent_benchmark steady_batch 1 5)) 5 1,
        analyze_results (rev (fst (run_concurrent_benchmark steady_batch 1 5))) 5 1
  with
  | Return None, Return None => True
  | Return (Some s), Return (Some s') => stats_eq s s'
  | _, _ => False
  end.
Proof.
  exact (statistics_ignore_order _ _ 5 1
           (Permutation_rev (fst (run_concurrent_benchmark steady_batch 1 5)))).
Defined.

Lemma steady_levels_succeed k level :
  nth_error [1; 2]%Z k = Some level ->
  exists o, In o (fst (run_concurrent_benchmark (steady_world k) level 5))
            /\ success o = true.
Proof.
  destruct k as [|[|k]]; cbn; intros H; try (destruct k; discriminate);
    injection H as <-; eexists; (split; [left; reflexivity|reflexivity]).
Qed.

Lemma run_complete_witness :
  exists run : list Stats,
    sweep steady_world [1; 2]%Z 5 = Return run
    /\ map num_concurrent run = [1; 2]%Z
    /\ List.length run = 2%nat.
Proof.
  exact (run_complete steady_world [1; 2]%Z 5 steady_levels_succeed).
Defined.

Lemma flaky_record :
  analyze_results (fst (run_concurrent_benchmark flaky_batch 1 5))
                  (snd (run_concurrent_benchmark flaky_batch 1 5)) 1
  = Return (Some (stats_of (fst (run_concurrent_benchmark flaky_batch 1 5))
                           (snd (run_concurrent_benchmark flaky_batch 1 5)) 1)).
Proof. apply analyze_results_some. vm_compute. discriminate. Qed.

Lemma flaky_clock id :
  t_start (batch_session flaky_batch id) <= t_end (batch_session flaky_batch id)
  /\ t_end (batch_session flaky_batch id) <= t_handler (batch_session flaky_batch id).
Proof.
  cbn. destruct (id =? 0)%Z; cbn; split; try apply Qle_refl; discriminate.
Qed.

Lemma latencies_nonnegative_witness :
  0 <= min_latency (stats_of (fst (run_concurrent_benchmark flaky_batch 1 5))
                             (snd (run_concurrent_benchmark flaky_batch 1 5)) 1).
Proof.
  exact (proj1 (proj2 (latencies_nonnegative flaky_batch 1 5 _
                         flaky_clock flaky_record))).
Defined.

(* ================================================================== *)
(** * The call of analyze_results and the state around it *)

Local Open Scope Q_scope.

Lemma extends_refl s : extends s s.
Proof. exists [], []. now rewrite !app_nil_r. Qed.

Lemma extends_trans s1 s2 s3 : extends s1 s2 -> extends s2 s3 -> extends s1 s3.
Proof.
  intros (e1 & l1 & H1 & C1) (e2 & l2 & H2 & C2).
  exists (e1 ++ e2), (l1 ++ l2). rewrite H2, C2, H1, C1, !app_assoc. now split.
Qed.

Lemma extends_lookup s s' i o :
  extends s s' -> nth_error (heap s) i = Some o -> nth_error (heap s') i = Some o.
Proof.
  intros (extra & lines & Hh & _) Hi. rewrite Hh, nth_error_app1; [exact Hi|].
  apply nth_error_Some. congruence.
Qed.

Lemma extends_points s s' items outcomes :
  extends s s' -> points s items outcomes -> points s' items outcomes.
Proof.
  intros He H. induction H as [|i o items outcomes Hi _ IH]; constructor.
  - now apply (extends_lookup s).
  - exact IH.
Qed.

Lemma extends_stores s s' r outcomes :
  extends s s' -> stores s r outcomes -> stores s' r outcomes.
Proof.
  intros He (items & Hr & Hp). exists items. split.
  - now apply (extends_lookup s).
  - now apply (extends_points s).
Qed.

Lemma bind_run_return {A B : Type} (m : run A) (k : A -> run B) s a s' :
  m s = (Return a, s') -> bind_run m k s = k a s'.
Proof. intros H. unfold bind_run. now rewrite H. Qed.

Lemma read_dict_at s r o :
  nth_error (heap s) r = Some (Dict o) -> read_dict r s = (Return o, s).
Proof. intros H. unfold read_dict. now rewrite H. Qed.

Lemma elements_at s r items :
  nth_error (heap s) r = Some (PyList items) -> elements r s = (Return items, s).
Proof. intros H. unfold elements. now rewrite H. Qed.

Lemma select_spec keep s items outcomes :
  points s items outcomes ->
  exists kept,
    select keep items s = (Return kept, s)
    /\ points s kept (filter keep outcomes).
Proof.
  induction 1 as [|i o items outcomes Hi _ (kept & Hsel & Hk)]; cbn [select filter].
  - exists []. split; [reflexivity|constructor].
  - rewrite (bind_run_return _ _ _ _ _ (read_dict_at _ _ _ Hi)).
    rewrite (bind_run_return _ _ _ _ _ Hsel). unfold ret.
    destruct (keep o); eexists; (split; [reflexivity|]).
    + now constructor.
    + exact Hk.
Qed.

Lemma column_spec {A : Type} (field : Outcome -> A) s items outcomes :
  points s items outcomes ->
  column field items s = (Return (map field outcomes), s).
Proof.
  induction 1 as [|i o items outcomes Hi _ IH]; cbn [column map]; [reflexivity|].
  rewrite (bind_run_return _ _ _ _ _ (read_dict_at _ _ _ Hi)).
  now rewrite (bind_run_return _ _ _ _ _ IH).
Qed.

Lemma print_errors_spec s items outcomes :
  points s items outcomes ->
  exists lines,
    print_errors items s
    = (Return tt, {| heap := heap s; console := console s ++ lines |}).
Proof.
  intros H. revert H. generalize (eq_refl (heap s)).
  generalize (heap s) at 1 3 as h. intros h Hh H.
  assert (Hgen : forall c, exists lines,
            print_errors items {| heap := h; console := c |}
            = (Return tt, {| heap := h; console := c ++ lines |})).
  { subst h. clear -H. induction H as [|i o items outcomes Hi _ IH]; intros c.
    - exists []. cbn. now rewrite app_nil_r.
    - cbn [print_errors].
      assert (Hi' : nth_error (heap {| heap := heap s; console := c |}) i
                    = Some (Dict o)) by exact Hi.
      rewrite (bind_run_return _ _ _ _ _ (read_dict_at _ _ _ Hi')).
      unfold bind_run at 1, print at 1. cbn [heap console].
      destruct (IH (c ++ [("  Error: " ++ match error o with
                                        | Some e => e
                                        | None => "None"
                                        end)%string])) as (lines & Hl).
      rewrite Hl. eexists. rewrite <- app_assoc. reflexivity. }
  destruct (Hgen (console s)) as (lines & Hl). exists lines.
  subst h. destruct s. exact Hl.
Qed.

Lemma points_length s items outcomes :
  points s items outcomes -> List.length items = List.length outcomes.
Proof. induction 1; cbn; congruence. Qed.

Lemma new_list_at s items :
  new_list items s
  = (Return (List.length (heap s)),
     {| heap := heap s ++ [PyList items]; console := console s |}).
Proof. reflexivity. Qed.

Lemma extends_new_list s items :
  extends s {| heap := heap s ++ [PyList items]; console := console s |}.
Proof. exists [PyList items], []. cbn. now rewrite app_nil_r. Qed.

Lemma lookup_new s items c :
  nth_error (heap {| heap := heap s ++ [PyList items]; console := c |})
            (List.length (heap s))
  = Some (PyList items).
Proof. cbn. rewrite nth_error_app2, Nat.sub_diag; [reflexivity|lia]. Qed.

Lemma extends_print s line :
  extends s {| heap := heap s; console := console s ++ [line] |}.
Proof. exists [], [line]. cbn. now rewrite app_nil_r. Qed.

Lemma points_firstn s k items outcomes :
  points s items outcomes -> points s (firstn k items) (firstn k outcomes).
Proof.
  intros H; revert k; induction H as [|i o items outcomes Hi _ IH]; intros k.
  - rewrite !firstn_nil. constructor.
  - destruct k; cbn [firstn]; constructor; [exact Hi|apply IH].
Qed.

Lemma kind_errors_spec s failed rest outcomes :
  nth_error (heap s) failed = Some (PyList rest) ->
  points s rest outcomes ->
  exists s',
    (failures <~ elements failed ;;
     first3 <~ new_list (firstn 3 failures) ;;
     shown <~ elements first3 ;;
     print_errors shown) s = (Return tt, s')
    /\ extends s s'.
Proof.
  intros Hf Hp.
  rewrite (bind_run_return _ _ _ _ _ (elements_at _ _ _ Hf)).
  rewrite (bind_run_return _ _ _ _ _ (new_list_at s (firstn 3 rest))).
  set (s1 := {| heap := heap s ++ [PyList (firstn 3 rest)]; console := console s |}).
  assert (E1 : extends s s1) by apply extends_new_list.
  assert (Hn : nth_error (heap s1) (List.length (heap s))
               = Some (PyList (firstn 3 rest))) by apply lookup_new.
  rewrite (bind_run_return _ _ _ _ _ (elements_at _ _ _ Hn)).
  assert (Hp1 : points s1 (firstn 3 rest) (firstn 3 outcomes)).
  { apply (extends_points s); [exact E1|]. now apply points_firstn. }
  destruct (print_errors_spec s1 _ _ Hp1) as (lines & Hl).
  rewrite Hl. eexists. split; [reflexivity|].
  apply (extends_trans s s1); [exact E1|].
  exists [], lines. cbn. now rewrite app_nil_r.
Qed.

(** The call returns what [analyze_results] says of the contents of
    the list, and leaves every object that was there as it was. *)
Lemma analyze_results_in_spec script s r outcomes t n :
  stores s r outcomes ->
  exists s',
    analyze_results_in script r t n s = (analyze_results outcomes t n, s')
    /\ extends s s'.
Proof.
  intros (items & Hr & Hp).
  destruct (select_spec (fun o => success o) s items outcomes Hp)
    as (kept & Hkept & Hkp).
  set (s1 := {| heap := heap s ++ [PyList kept]; console := console s |}).
  assert (E1 : extends s s1) by apply extends_new_list.
  assert (Hp1 : points s1 items outcomes) by now apply (extends_points s).
  destruct (select_spec (fun o => negb (success o)) s1 items outcomes Hp1)
    as (rest & Hrest & Hrp).
  set (s2 := {| heap := heap s1 ++ [PyList rest]; console := console s1 |}).
  assert (E2 : extends s1 s2) by apply extends_new_list.
  assert (E02 : extends s s2) by now apply (extends_trans s s1).
  assert (Hsucc : nth_error (heap s2) (List.length (heap s)) = Some (PyList kept)).
  { apply (extends_lookup s1); [exact E2|]. apply lookup_new. }
  assert (Hfail : nth_error (heap s2) (List.length (heap s1)) = Some (PyList rest))
    by apply lookup_new.
  assert (Hres1 : nth_error (heap s1) r = Some (PyList items))
    by now apply (extends_lookup s).
  assert (Hres2 : nth_error (heap s2) r = Some (PyList items))
    by now apply (extends_lookup s).
  assert (Hkp2 : points s2 kept (successful_of outcomes))
    by now apply (extends_points s).
  assert (Hrp2 : points s2 rest (failed_of outcomes))
    by now apply (extends_points s1).
  unfold analyze_results_in.
  rewrite (bind_run_return _ _ _ _ _ (elements_at _ _ _ Hr)).
  rewrite (bind_run_return _ _ _ _ _ Hkept).
  rewrite (bind_run_return _ _ _ _ _ (new_list_at s kept)). fold s1.
  rewrite (bind_run_return _ _ _ _ _ (elements_at _ _ _ Hres1)).
  rewrite (bind_run_return _ _ _ _ _ Hrest).
  rewrite (bind_run_return _ _ _ _ _ (new_list_at s1 rest)). fold s2.
  rewrite (bind_run_return _ _ _ _ _ (elements_at _ _ _ Hsucc)).
  pose proof (points_length _ _ _ Hkp2) as Hlk.
  pose proof (points_length _ _ _ Hrp2) as Hlr.
  pose proof (points_length _ _ _ Hp) as Hli.
  destruct kept as [|k kept'].
  - (* nothing succeeded *)
    assert (Hnil : successful_of outcomes = []).
    { destruct (successful_of outcomes); [reflexivity|discriminate]. }
    rewrite (analyze_results_none _ _ _ Hnil).
    unfold bind_run at 1, print at 1.
    set (s3 := {| heap := heap s2; console := console s2 ++ _ |}).
    assert (E3 : extends s2 s3) by apply extends_print.
    destruct script.
    + unfold bind_run, ret. exists s3. split; [reflexivity|].
      now apply (extends_trans s s2).
    + assert (Hfail3 : nth_error (heap s3) (List.length (heap s1))
                       = Some (PyList rest)) by exact Hfail.
      assert (Hrp3 : points s3 rest (failed_of outcomes))
        by now apply (extends_points s2).
      destruct (kind_errors_spec s3 _ _ _ Hfail3 Hrp3) as (s4 & Hs4 & E4).
      rewrite (bind_run_return _ _ _ _ _ Hs4). unfold ret.
      exists s4. split; [reflexivity|].
      apply (extends_trans s s2); [exact E02|].
      now apply (extends_trans s2 s3).
  - (* some request succeeded *)
    assert (Hne : successful_of outcomes <> []).
    { destruct (successful_of outcomes); discriminate. }
    rewrite (analyze_results_some _ _ _ Hne).
    rewrite (bind_run_return _ _ _ _ _ (elements_at _ _ _ Hsucc)).
    rewrite (bind_run_return _ _ _ _ _ (column_spec latency _ _ _ Hkp2)).
    rewrite (bind_run_return _ _ _ _ _ (elements_at _ _ _ Hsucc)).
    rewrite (bind_run_return _ _ _ _ _ (column_spec tokens_per_second _ _ _ Hkp2)).
    rewrite (bind_run_return _ _ _ _ _ (elements_at _ _ _ Hsucc)).
    rewrite (bind_run_return _ _ _ _ _ (column_spec completion_tokens _ _ _ Hkp2)).
    rewrite (bind_run_return _ _ _ _ _ (elements_at _ _ _ Hres2)).
    rewrite (bind_run_return _ _ _ _ _ (elements_at _ _ _ Hsucc)).
    rewrite (bind_run_return _ _ _ _ _ (elements_at _ _ _ Hfail)).
    exists s2. split; [|exact E02].
    destruct (successful_of outcomes) as [|o os] eqn:E; [congruence|].
    cbn [map].
    rewrite !np_mean_cons, np_median_cons, !np_percentile_cons, np_min_cons,
      np_max_cons, overall_throughput_expr_value.
    unfold lift, bind_run, ret. cbn [np].
    unfold stats_of. rewrite E. cbn [map].
    unfold py_len. rewrite Hlk, Hlr, Hli. reflexivity.
Qed.

(** C9: two invocations of analyze_results on the same arguments
    return the same record, or both return None.  The call reads the
    list it is given and the dictionaries in it and changes neither:
    all it leaves behind are its own new lists and its lines on the
    console.  So a second invocation finds what the first one found;
    and so does an invocation in any other state of the interpreter in
    which the list has the same contents. *)
Theorem analyze_results_deterministic
    (script : Script) (s : Interp) (r : ref) (outcomes : list Outcome)
    (t : Q) (n : Z) :
  stores s r outcomes ->
  exists (v : exc (option Stats)) (s1 s2 : Interp),
    analyze_results_in script r t n s = (v, s1)
    /\ analyze_results_in script r t n s1 = (v, s2)
    /\ v = analyze_results outcomes t n
    /\ extends s s1 /\ extends s1 s2
    /\ stores s1 r outcomes /\ stores s2 r outcomes
    /\ (forall script' s' r',
          stores s' r' outcomes ->
          fst (analyze_results_in script' r' t n s') = v).
Proof.
  intros H.
  destruct (analyze_results_in_spec script s r outcomes t n H) as (s1 & H1 & E1).
  pose proof (extends_stores _ _ _ _ E1 H) as Hs1.
  destruct (analyze_results_in_spec script s1 r outcomes t n Hs1) as (s2 & H2 & E2).
  exists (analyze_results outcomes t n), s1, s2.
  split; [exact H1|]. split; [exact H2|]. split; [reflexivity|].
  split; [exact E1|]. split; [exact E2|]. split; [exact Hs1|].
  split; [now apply (extends_stores s1)|].
  intros script' s' r' H'.
  destruct (analyze_results_in_spec script' s' r' outcomes t n H') as (s3 & H3 & _).
  now rewrite H3.
Qed.

Lemma five_objects_stores : stores five_objects 5%nat five_outcomes.
Proof.
  exists [0; 1; 2; 3; 4]%nat. split; [reflexivity|]. repeat constructor.
Qed.

Lemma analyze_results_deterministic_witness :
  exists (v : exc (option Stats)) (s1 s2 : Interp),
    analyze_results_in Kind 5%nat 5 1 five_objects = (v, s1)
    /\ analyze_results_in Kind 5%nat 5 1 s1 = (v, s2)
    /\ v = analyze_results five_outcomes 5 1.
Proof.
  destruct (analyze_results_deterministic Kind five_objects 5%nat five_outcomes 5 1
              five_objects_stores) as (v & s1 & s2 & H1 & H2 & Hv & _).
  exists v, s1, s2. repeat split; assumption.
Defined.
